(** * UniFi WAN / internet monitor: shallow embedding and properties

    The development follows the repository file by file:
    - [JS]       the fragment of JavaScript values the controller payloads use,
                 with the conversions between numbers and strings;
    - [Unifi]    src/unifi.mjs   (gateway selection, WAN signal readers);
    - [Monitor]  src/monitor.mjs (hysteresis, history buffer, one cycle);
    - [Server]   src/server.mjs  (the onChange subscriber, audit records);
    - [Legacy]   unifi-monitor.mjs (cookie client, first state machine, loop);
    - [Observer] the dashboard page (tick merge, reconnection backoff). *)

From Stdlib Require Import ZArith NArith QArith List String Ascii Bool Lia
  DecimalString Sorted.
Close Scope Q_scope.
Import ListNotations.
Open Scope string_scope.

Set Warnings "-register-all".

(** ** JavaScript values *)

Module JS.

(** Numbers that are integers (identifiers, priorities, counters,
    milliseconds), and [NaN]. *)
Inductive number : Type :=
| NaN
| Num (z : Z).

(** The other numbers: a fraction [m / 2^e] that is not an integer, which is
    what a finite binary64 number is when it is not one, and the two
    infinities.  Minus zero is zero: nothing in this program tells them
    apart. *)
Inductive real : Type :=
| Frac (m : Z) (e : positive)
| Infinity (negative : bool).

Inductive value : Type :=
| VUndefined
| VNull
| VBool (b : bool)
| VNum (n : number)
| VReal (x : real)
| VStr (s : string)
| VArr (xs : list value)
| VObj (fields : list (string * value)).

(** What [Number(v)] gives *)
Inductive numeric : Type :=
| Whole (n : number)
| Other (x : real).

Fixpoint lookup (k : string) (fields : list (string * value)) : value :=
  match fields with
  | [] => VUndefined
  | (k', v) :: rest => if String.eqb k k' then v else lookup k rest
  end.

(** [v?.k] for the property names the code reads.  Only objects carry them;
    the one inherited name among them, [link] on a string, is a function and
    fails every [typeof ... === "boolean"] test exactly as [undefined] does. *)
Definition get (v : value) (k : string) : value :=
  match v with
  | VObj fields => lookup k fields
  | _ => VUndefined
  end.

(** [a ?? b] *)
Definition nullish (a b : value) : value :=
  match a with
  | VUndefined | VNull => b
  | _ => a
  end.

Definition isArray (v : value) : bool :=
  match v with VArr _ => true | _ => false end.

(** [typeof v === "boolean"], returning the boolean when it is one *)
Definition asBoolean (v : value) : option bool :=
  match v with VBool b => Some b | _ => None end.

(** [v === true] *)
Definition isTrue (v : value) : bool :=
  match v with VBool true => true | _ => false end.

(** [Boolean(v)], also the test of [if (v)], [!v] and [a || b] *)
Definition truthy (v : value) : bool :=
  match v with
  | VUndefined | VNull => false
  | VBool b => b
  | VNum NaN => false
  | VNum (Num z) => negb (Z.eqb z 0)
  | VReal (Frac m _) => negb (Z.eqb m 0)
  | VReal (Infinity _) => true
  | VStr s => negb (String.eqb s "")
  | VArr _ | VObj _ => true
  end.

(** [a || b] *)
Definition orElse (a b : value) : value := if truthy a then a else b.

(** [arr.find(pred)] *)
Fixpoint find (pred : value -> bool) (xs : list value) : value :=
  match xs with
  | [] => VUndefined
  | x :: rest => if pred x then x else find pred rest
  end.

(** Decimal rendering of an integer, as in a template literal *)
Definition showZ (z : Z) : string := NilZero.string_of_int (Z.to_int z).

Fixpoint join (sep : string) (parts : list string) : string :=
  match parts with
  | [] => ""
  | [p] => p
  | p :: rest => p ++ sep ++ join sep rest
  end.

(** *** Binary64 arithmetic *)

Section Binary64.
Local Open Scope Z_scope.

(** The integer nearest to [n / d], the even one of two ([0 <= n], [0 < d]) *)
Definition nearestEven (n d : Z) : Z :=
  let q := n / d in
  let r := n mod d in
  if 2 * r <? d then q
  else if d <? 2 * r then q + 1
  else if Z.even q then q else q + 1.

(** [n / d * b^k] as a fraction *)
Definition scaled (b n d k : Z) : Z * Z :=
  if 0 <=? k then (n * b ^ k, d) else (n, d * b ^ (- k)).

(** How many times 2 divides [p] *)
Fixpoint trailingZeros (p : positive) : Z :=
  match p with
  | xO p' => 1 + trailingZeros p'
  | _ => 0
  end.

(** [m * 2^u] for [0 <= m], in lowest terms *)
Definition dyadic (m u : Z) : numeric :=
  match m with
  | Z.pos p =>
      if 0 <=? u then Whole (Num (m * 2 ^ u))
      else
        let t := Z.min (trailingZeros p) (- u) in
        if t =? - u then Whole (Num (m / 2 ^ t))
        else Other (Frac (m / 2 ^ t) (Z.to_pos (- u - t)))
  | _ => Whole (Num 0)
  end.

(** The binary64 number nearest to [n / d] for [0 < n] and [0 < d], the one
    with an even significand of two: 53 significant bits, the exponent of
    the last bit between -1074 and 971, infinity past the largest *)
Definition binary64 (n d : Z) : numeric :=
  let e0 := Z.log2 n - Z.log2 d in
  let '(a, b) := scaled 2 n d (- e0) in
  let e := if b <=? a then e0 else e0 - 1 in
  if 1023 <? e then Other (Infinity false)
  else
    let u := Z.max (e - 52) (-1074) in
    let '(a', b') := scaled 2 n d (- u) in
    let m := nearestEven a' b' in
    if (2 ^ 53 <=? m) && (u =? 971) then Other (Infinity false)
    else dyadic m u.

Definition negate (x : numeric) : numeric :=
  match x with
  | Whole NaN => Whole NaN
  | Whole (Num z) => Whole (Num (- z))
  | Other (Frac m e) => Other (Frac (- m) e)
  | Other (Infinity s) => Other (Infinity (negb s))
  end.

(** The binary64 number nearest to [n / d], for [0 < d] *)
Definition nearest (n d : Z) : numeric :=
  match n with
  | 0 => Whole (Num 0)
  | Z.pos _ => binary64 n d
  | Z.neg _ => negate (binary64 (- n) d)
  end.

(** A finite number as a fraction *)
Definition ratio (x : numeric) : option Q :=
  match x with
  | Whole (Num z) => Some (Qmake z 1)
  | Other (Frac m e) => Some (Qmake m (2 ^ e))
  | _ => None
  end.

(** [Number.isFinite(x)] *)
Definition isFinite (x : numeric) : bool :=
  match ratio x with Some _ => true | None => false end.

(** [x > 0] *)
Definition isPositive (x : numeric) : bool :=
  match x with
  | Whole NaN => false
  | Whole (Num z) => 0 <? z
  | Other (Frac m _) => 0 <? m
  | Other (Infinity s) => negb s
  end.

(** *** [Number::toString] *)

Fixpoint zeros (n : nat) : string :=
  match n with O => "" | S n' => String "0" (zeros n') end.

(** The least [j] from [j0] on with [1 <= n / d * 10^j], for [n / d < 1] *)
Fixpoint shiftsToOne (fuel : nat) (n d j : Z) : Z :=
  match fuel with
  | O => j
  | S fuel' => if d <=? n * 10 ^ j then j else shiftsToOne fuel' n d (j + 1)
  end.

(** The [n] with [10^(n-1) <= a / b < 10^n], for a positive binary64 number *)
Definition decimalExponent (a b : Z) : Z :=
  if b <=? a then Z.of_nat (String.length (showZ (a / b)))
  else 1 - shiftsToOne 400 a b 1.

(** Whether [s * 10^(n - k)] is a decimal of the number [a / b], one that
    reads back as it *)
Definition readsBack (a b s n k : Z) : bool :=
  let '(c, d) := scaled 10 s 1 (n - k) in
  match ratio (binary64 c d) with
  | Some q => Qeq_bool q (Qmake a (Z.to_pos b))
  | None => false
  end.

(** The decimal of [k] digits for [a / b], if one reads back as it: of the
    two that enclose [a / b] the nearer, the even one when as near; the
    digits come with the exponent [n], one more when they round up to a
    power of ten. *)
Definition withDigits (a b n k : Z) : option (Z * Z) :=
  let '(c, d) := scaled 10 a b (k - n) in
  let lo := c / d in
  let up := if lo + 1 <? 10 ^ k then (lo + 1, n) else (10 ^ (k - 1), n + 1) in
  let below := readsBack a b lo n k in
  let above := readsBack a b (fst up) (snd up) k in
  let nearerBelow :=
    let r := 2 * (c - lo * d) in
    (r <? d) || ((r =? d) && Z.even lo) in
  if below && (negb above || nearerBelow) then Some (lo, n)
  else if above then Some up
  else None.

(** The digits [s], the exponent [n] and the number of digits [k], with [k]
    as small as possible; 17 digits always suffice for a binary64 number. *)
Fixpoint shortest (fuel : nat) (a b n k : Z) : Z * Z * Z :=
  match fuel with
  | O => let '(c, d) := scaled 10 a b (17 - n) in (c / d, n, 17)
  | S fuel' =>
      match withDigits a b n k with
      | Some (s, n') => (s, n', k)
      | None => shortest fuel' a b n (k + 1)
      end
  end.

(** The decimal of a positive binary64 number [a / b] *)
Definition showPositive (a b : Z) : string :=
  let '(s, n, k) := shortest 17 a b (decimalExponent a b) 1 in
  let ds := showZ s in
  if (k <=? n) && (n <=? 21) then ds ++ zeros (Z.to_nat (n - k))
  else if (0 <? n) && (n <=? 21) then
    substring 0 (Z.to_nat n) ds ++ "."
    ++ substring (Z.to_nat n) (Z.to_nat (k - n)) ds
  else if (-6 <? n) && (n <=? 0) then "0." ++ zeros (Z.to_nat (- n)) ++ ds
  else
    let e := n - 1 in
    (if k =? 1 then ds
     else substring 0 1 ds ++ "." ++ substring 1 (Z.to_nat (k - 1)) ds)
    ++ "e" ++ (if e <? 0 then "-" else "+") ++ showZ (Z.abs e).

(** [String(x)] of a number *)
Definition showNumeric (x : numeric) : string :=
  match x with
  | Whole NaN => "NaN"
  | Other (Infinity false) => "Infinity"
  | Other (Infinity true) => "-Infinity"
  | Whole (Num z) =>
      match z with
      | 0 => "0"
      | Z.pos _ => showPositive z 1
      | Z.neg _ => "-" ++ showPositive (- z) 1
      end
  | Other (Frac m e) =>
      match m with
      | 0 => "0"
      | Z.pos _ => showPositive m (Z.pos (2 ^ e))
      | Z.neg _ => "-" ++ showPositive (- m) (Z.pos (2 ^ e))
      end
  end.

(** Up to 2^53 the decimal of an integer is the integer written out. *)
Definition showNumber (n : number) : string :=
  match n with
  | NaN => "NaN"
  | Num z => if Z.abs z <? 2 ^ 53 then showZ z else showNumeric (nearest z 1)
  end.

Definition showReal (x : real) : string :=
  match x with
  | Frac m e => showNumeric (nearest m (Z.pos (2 ^ e)))
  | Infinity _ => showNumeric (Other x)
  end.

End Binary64.

(** [String(v)].  An object is rendered by the [toString] it inherits: the
    objects of a payload have no member of that name of their own. *)
Fixpoint toString (v : value) : string :=
  match v with
  | VUndefined => "undefined"
  | VNull => "null"
  | VBool true => "true"
  | VBool false => "false"
  | VNum n => showNumber n
  | VReal x => showReal x
  | VStr s => s
  | VArr xs =>
      join ","
        ((fix elems (l : list value) : list string :=
            match l with
            | [] => []
            | VUndefined :: l' => "" :: elems l'
            | VNull :: l' => "" :: elems l'
            | x :: l' => toString x :: elems l'
            end) xs)
  | VObj _ => "[object Object]"
  end.

(** *** Strings.  A string holds the UTF-8 bytes of its characters. *)

(** Case mapping on ASCII letters; other bytes are left alone. *)
Definition lowerAscii (c : ascii) : ascii :=
  let n := nat_of_ascii c in
  if andb (Nat.leb 65 n) (Nat.leb n 90) then ascii_of_nat (n + 32) else c.

Definition upperAscii (c : ascii) : ascii :=
  let n := nat_of_ascii c in
  if andb (Nat.leb 97 n) (Nat.leb n 122) then ascii_of_nat (n - 32) else c.

Fixpoint mapString (f : ascii -> ascii) (s : string) : string :=
  match s with
  | EmptyString => EmptyString
  | String c rest => String (f c) (mapString f rest)
  end.

(** The letters of a string as a regular expression with the flag [i] and
    without the flag [u] compares them: the ASCII letters in one case, and
    no character outside ASCII made equal to one of them. *)
Definition foldCase : string -> string := mapString lowerAscii.

(** The UTF-8 bytes of a character *)
Definition utf8 (codePoint : N) : string :=
  let byte (n : N) := String (ascii_of_N n) "" in
  let low (n : N) := byte (128 + n mod 64)%N in
  if (codePoint <? 128)%N then byte codePoint
  else if (codePoint <? 2048)%N then
    byte (192 + codePoint / 64)%N ++ low codePoint
  else if (codePoint <? 65536)%N then
    byte (224 + codePoint / 4096)%N ++ low (codePoint / 64)%N ++ low codePoint
  else
    byte (240 + codePoint / 262144)%N ++ low (codePoint / 4096)%N
    ++ low (codePoint / 64)%N ++ low codePoint.

Definition text (codePoints : list N) : string :=
  String.concat "" (map utf8 codePoints).

(** The entry of a table of characters that [s] starts with *)
Fixpoint startsWith {A : Type} (table : list (string * A)) (s : string)
  : option (string * A) :=
  match table with
  | [] => None
  | (w, x) :: rest =>
      if String.prefix w s then Some (w, x) else startsWith rest s
  end.

(** The characters outside ASCII whose upper case has ASCII letters in it:
    sharp s, dotless i, long s, the letters that have no upper case of their
    own (n after apostrophe, j with caron, h with line below, t with
    diaeresis, w and y with ring, a with half ring) and the ligatures ff, fi,
    fl, ffi, ffl and st *)
Definition upperSpecial : list (string * string) :=
  map (fun e => (utf8 (fst e), text (snd e)))
    [ (0xDF, [0x53; 0x53]); (0x131, [0x49]); (0x17F, [0x53]);
      (0x149, [0x2BC; 0x4E]); (0x1F0, [0x4A; 0x30C]);
      (0x1E96, [0x48; 0x331]); (0x1E97, [0x54; 0x308]);
      (0x1E98, [0x57; 0x30A]); (0x1E99, [0x59; 0x30A]);
      (0x1E9A, [0x41; 0x2BE]);
      (0xFB00, [0x46; 0x46]); (0xFB01, [0x46; 0x49]); (0xFB02, [0x46; 0x4C]);
      (0xFB03, [0x46; 0x46; 0x49]); (0xFB04, [0x46; 0x46; 0x4C]);
      (0xFB05, [0x53; 0x54]); (0xFB06, [0x53; 0x54]) ]%N.

(** The characters outside ASCII whose lower case has ASCII letters in it:
    I with dot above and the Kelvin sign *)
Definition lowerSpecial : list (string * string) :=
  map (fun e => (utf8 (fst e), text (snd e)))
    [ (0x130, [0x69; 0x307]); (0x212A, [0x6B]) ]%N.

(** Case mapping of a string: the characters of the table are replaced, the
    ASCII letters mapped; [skip] counts the bytes left of a character that
    has been replaced.  The other characters outside ASCII are left as they
    are: their case mapping has no ASCII letter in it, and the strings
    mapped here are only compared with ASCII words. *)
Fixpoint mapCase (table : list (string * string)) (f : ascii -> ascii)
    (skip : nat) (s : string) : string :=
  match s with
  | EmptyString => EmptyString
  | String c rest =>
      match skip with
      | S k => mapCase table f k rest
      | O =>
          match startsWith table s with
          | Some (w, r) => r ++ mapCase table f (String.length w - 1) rest
          | None => String (f c) (mapCase table f 0 rest)
          end
      end
  end.

(** [s.toLowerCase()] and [s.toUpperCase()] *)
Definition toLowerCase : string -> string := mapCase lowerSpecial lowerAscii 0.
Definition toUpperCase : string -> string := mapCase upperSpecial upperAscii 0.

(** [s.includes(sub)] *)
Fixpoint includes (s sub : string) : bool :=
  if String.prefix sub s then true
  else match s with
       | EmptyString => false
       | String _ rest => includes rest sub
       end.

(** [list.includes(s)] on a list of string literals *)
Definition member (s : string) (l : list string) : bool :=
  existsb (String.eqb s) l.

(** *** [Number(s)] on a string *)

Fixpoint revString (s acc : string) : string :=
  match s with
  | EmptyString => acc
  | String c rest => revString rest (String c acc)
  end.

(** White space and line terminators: tab, line feed, vertical tab, form
    feed, carriage return, space, no-break space, the other space
    separators, the line and paragraph separators, the byte order mark *)
Definition whiteSpace : list (string * unit) :=
  map (fun codePoint => (utf8 codePoint, tt))
    [ 0x9; 0xA; 0xB; 0xC; 0xD; 0x20; 0xA0; 0x1680;
      0x2000; 0x2001; 0x2002; 0x2003; 0x2004; 0x2005; 0x2006; 0x2007; 0x2008;
      0x2009; 0x200A; 0x2028; 0x2029; 0x202F; 0x205F; 0x3000; 0xFEFF ]%N.

Definition reversed {A : Type} (table : list (string * A)) : list (string * A) :=
  map (fun e => (revString (fst e) "", snd e)) table.

(** [s] without the characters of the table it starts with *)
Fixpoint dropLeading (table : list (string * unit)) (skip : nat) (s : string)
  : string :=
  match s with
  | EmptyString => EmptyString
  | String _ rest =>
      match skip with
      | S k => dropLeading table k rest
      | O =>
          match startsWith table s with
          | Some (w, _) => dropLeading table (String.length w - 1) rest
          | None => s
          end
      end
  end.

Definition trim (s : string) : string :=
  revString
    (dropLeading (reversed whiteSpace) 0
       (revString (dropLeading whiteSpace 0 s) "")) "".

Section StringToNumber.
Local Open Scope Z_scope.

(** The value of a digit in a radix up to 16 *)
Definition digitOf (radix : Z) (c : ascii) : option Z :=
  let n := Z.of_nat (nat_of_ascii c) in
  let d := if (48 <=? n) && (n <=? 57) then n - 48
           else if (97 <=? n) && (n <=? 102) then n - 87
           else if (65 <=? n) && (n <=? 70) then n - 55
           else radix in
  if d <? radix then Some d else None.

(** The digits [s] starts with: their value after [acc], how many they are
    after [count], and the rest of [s] *)
Fixpoint digits (radix : Z) (s : string) (acc count : Z) : Z * Z * string :=
  match s with
  | EmptyString => (acc, count, s)
  | String c rest =>
      match digitOf radix c with
      | Some d => digits radix rest (radix * acc + d) (count + 1)
      | None => (acc, count, s)
      end
  end.

(** [0x], [0o] and [0b] literals: digits only, and at least one *)
Definition nonDecimal (radix : Z) (s : string) : numeric :=
  match digits radix s 0 0 with
  | (v, count, EmptyString) => if 0 <? count then nearest v 1 else Whole NaN
  | _ => Whole NaN
  end.

(** The exponent part, if there is one, and nothing after it *)
Definition exponentPart (s : string) : option Z :=
  match s with
  | EmptyString => Some 0
  | String c rest =>
      if Ascii.eqb c "e" || Ascii.eqb c "E" then
        let '(negative, ds) :=
          match rest with
          | String "-" r => (true, r)
          | String "+" r => (false, r)
          | _ => (false, rest)
          end in
        match digits 10 ds 0 0 with
        | (v, count, EmptyString) =>
            if 0 <? count then Some (if negative then - v else v) else None
        | _ => None
        end
      else None
  end.

(** [m * 10^e] for [0 <= m].  A decimal of more than 310 digits before the
    point is past the largest number, one that starts more than 330 places
    after the point is nearer to zero than to any other number. *)
Definition decimal (m e : Z) : numeric :=
  if m =? 0 then Whole (Num 0)
  else
    let size := Z.of_nat (String.length (showZ m)) + e in
    if 310 <? size then Other (Infinity false)
    else if size <? -330 then Whole (Num 0)
    else let '(n, d) := scaled 10 m 1 e in binary64 n d.

(** An unsigned decimal literal: [Infinity], or digits with an optional
    point and an optional exponent, with a digit before or after the point *)
Definition unsignedDecimal (s : string) : numeric :=
  if String.eqb s "Infinity" then Other (Infinity false)
  else
    let '(whole, wholeCount, afterWhole) := digits 10 s 0 0 in
    let '(mantissa, fractionCount, afterFraction) :=
      match afterWhole with
      | String "." r => digits 10 r whole 0
      | _ => (whole, 0, afterWhole)
      end in
    if 0 <? wholeCount + fractionCount then
      match exponentPart afterFraction with
      | Some e => decimal mantissa (e - fractionCount)
      | None => Whole NaN
      end
    else Whole NaN.

(** [Number(s)] on a string: the white space around is dropped; the empty
    string is 0; a literal with a radix prefix has no sign; a decimal
    literal may have one; anything else is [NaN]. *)
Definition stringToNumber (s : string) : numeric :=
  match trim s with
  | EmptyString => Whole (Num 0)
  | String "-" rest => negate (unsignedDecimal rest)
  | String "+" rest => unsignedDecimal rest
  | String "0" (String c rest) as t =>
      if Ascii.eqb c "x" || Ascii.eqb c "X" then nonDecimal 16 rest
      else if Ascii.eqb c "o" || Ascii.eqb c "O" then nonDecimal 8 rest
      else if Ascii.eqb c "b" || Ascii.eqb c "B" then nonDecimal 2 rest
      else unsignedDecimal t
  | t => unsignedDecimal t
  end.

End StringToNumber.

(** [Number(v)] *)
Definition toNumber (v : value) : numeric :=
  match v with
  | VUndefined => Whole NaN
  | VNull => Whole (Num 0)
  | VBool true => Whole (Num 1)
  | VBool false => Whole (Num 0)
  | VNum n => Whole n
  | VReal x => Other x
  | VStr s => stringToNumber s
  | VArr _ => stringToNumber (toString v)
  | VObj _ => Whole NaN
  end.

End JS.

(** ** src/unifi.mjs: gateway selection and WAN signal readers *)

Module Unifi.
Import JS.
Local Open Scope Z_scope.

(** One element of [groups.map(g => ({ g, p: ... }))]: [p] is the priority
    as a number when that is finite, and 9999 otherwise. *)
Definition withPriority (g : value) : value * Q :=
  (g, match ratio (toNumber (get g "priority")) with
      | Some p => p
      | None => inject_Z 9999
      end).

(** [Array.prototype.sort] with comparator [a.p - b.p]: stable, ascending.
    The difference of two finite binary64 numbers has the sign of their
    exact difference, so [x] goes before [y] unless [y.p < x.p]. *)
Fixpoint insertByPriority (x : value * Q) (sorted : list (value * Q))
  : list (value * Q) :=
  match sorted with
  | [] => [x]
  | y :: rest =>
      if Qle_bool (snd x) (snd y) then x :: sorted
      else y :: insertByPriority x rest
  end.

Definition sortByPriority (l : list (value * Q)) : list (value * Q) :=
  fold_right insertByPriority [] l.

Definition pickPrimaryWanGroup (groups : value) : value :=
  match groups with
  | VArr [] => VNull
  | VArr ((g0 :: _) as gs) =>
      let byId :=
        find (fun g =>
                String.eqb (toUpperCase (toString (nullish (get g "id") (VStr ""))))
                           "WAN") gs in
      if truthy byId then byId
      else
        let withPrio := sortByPriority (map withPriority gs) in
        nullish
          (nullish (match withPrio with
                    | (g, _) :: _ => g
                    | [] => VUndefined
                    end) g0)
          VNull
  | _ => VNull
  end.

Record wanStatus : Type := { up : option bool; primary : value }.

Definition readWanStatusFromGroups (groups : value) : wanStatus :=
  let primary := pickPrimaryWanGroup groups in
  if negb (truthy primary) then {| up := None; primary := VNull |}
  else
    let disabled := truthy (get (get primary "port_info") "disabled") in
    let uptime := toNumber (get primary "uptime") in
    {| up := if disabled then Some false
             else if isFinite uptime then Some (isPositive uptime)
             else None;
       primary := primary |}.

Definition pickGateway (devices : list value) : value :=
  orElse
    (orElse
       (orElse
          (orElse
             (find (fun d => match get d "type" with
                             | VStr t => String.eqb t "gateway"
                             | _ => false
                             end) devices)
             (find (fun d =>
                      includes
                        (toUpperCase (toString (nullish (get d "model") (VStr ""))))
                        "USG") devices))
          (find (fun d =>
                   includes
                     (toUpperCase (toString (nullish (get d "name") (VStr ""))))
                     "USG") devices))
       (find (fun d =>
                includes
                  (toLowerCase (toString (nullish (get d "productLine") (VStr ""))))
                  "gateway") devices))
    VNull.

(** [for (const v of vs) if (typeof v === "boolean") return v;] *)
Fixpoint firstBoolean (vs : list value) : option bool :=
  match vs with
  | [] => None
  | v :: rest =>
      match asBoolean v with
      | Some b => Some b
      | None => firstBoolean rest
      end
  end.

Definition directFields (gw : value) : list value :=
  [ get (get gw "uplink") "up";
    get (get gw "wan") "up";
    get (get gw "internet") "up";
    get (get gw "internet") "connected";
    get (get gw "connectivity") "internet";
    get (get gw "status") "wanUp";
    get gw "wanUp" ].

(** Step 2 of [readWanUp]: the uplink given as an array *)
Definition uplinkArraySignal (gw : value) : option bool :=
  match get gw "uplink" with
  | VArr upl =>
      let wan :=
        nullish
          (find (fun x =>
                   includes
                     (toLowerCase (toString (nullish (get x "name") (VStr ""))))
                     "wan") upl)
          (match upl with x :: _ => x | [] => VUndefined end) in
      firstBoolean [get wan "up"; get wan "linkUp"; get wan "connected"]
  | _ => None
  end.

Definition isWanPort (p : value) : bool :=
  let name :=
    toLowerCase
      (toString (nullish (nullish (nullish (get p "name") (get p "portName"))
                                  (get p "displayName")) (VStr ""))) in
  let role :=
    toLowerCase
      (toString (nullish (nullish (nullish (get p "role") (get p "purpose"))
                                  (get p "usage")) (VStr ""))) in
  isTrue (get p "isWan") || String.eqb role "wan" || includes name "wan".

(** What one iteration of the loop over the candidate ports returns, if it
    returns at all *)
Definition portSignal (p : value) : option bool :=
  match firstBoolean [get p "up"; get p "linkUp"; get p "hasLink";
                      get p "connected"; get p "link"] with
  | Some b => Some b
  | None =>
      let st :=
        toLowerCase
          (toString (nullish (nullish (get p "status") (get p "state")) (VStr ""))) in
      if String.eqb st "" then None
      else if member st ["up"; "online"; "connected"; "ok"] then Some true
      else if member st ["down"; "offline"; "disconnected"; "no_link"] then Some false
      else None
  end.

Fixpoint firstPortSignal (candidates : list value) : option bool :=
  match candidates with
  | [] => None
  | p :: rest =>
      match portSignal p with
      | Some b => Some b
      | None => firstPortSignal rest
      end
  end.

(** Step 3 of [readWanUp]: the list of physical ports *)
Definition portsSignal (gw : value) : option bool :=
  let interfaces := get gw "interfaces" in
  let ports :=
    nullish
      (nullish
         (nullish (get interfaces "ports") (get interfaces "ethernetPorts"))
         (if isArray interfaces then interfaces else VNull))
      (VArr []) in
  match ports with
  | VArr ((_ :: _) as ps) =>
      let wanPorts := filter isWanPort ps in
      let candidates := match wanPorts with [] => ps | _ => wanPorts end in
      firstPortSignal candidates
  | _ => None
  end.

(** [null] is [None]. *)
Definition readWanUp (gw : value) : option bool :=
  if negb (truthy gw) then None
  else
    match firstBoolean (directFields gw) with
    | Some b => Some b
    | None =>
        match uplinkArraySignal gw with
        | Some b => Some b
        | None => portsSignal gw
        end
    end.

End Unifi.

(** ** src/monitor.mjs: hysteresis, bounded history, one polling cycle *)

Module Monitor.
Import JS.
Local Open Scope Z_scope.

Inductive healthState : Type := OK | DEGRADED | DOWN | UNKNOWN.

Definition healthState_eqb (a b : healthState) : bool :=
  match a, b with
  | OK, OK | DEGRADED, DEGRADED | DOWN, DOWN | UNKNOWN, UNKNOWN => true
  | _, _ => false
  end.

(** The state as the string the code holds *)
Definition stateName (s : healthState) : string :=
  match s with
  | OK => "OK"
  | DEGRADED => "DEGRADED"
  | DOWN => "DOWN"
  | UNKNOWN => "UNKNOWN"
  end.

Definition stateLabel (s : healthState) : string :=
  match s with
  | DOWN => "🔴 INTERNET DOWN"
  | DEGRADED => "🟠 INSTÁVEL"
  | UNKNOWN => "⚪ DESCONHECIDO"
  | OK => "🟢 OK"
  end.

(** Result of [probeInternet()] *)
Record probe : Type := { ok : bool; url : string; ms : option Z }.

Record gateway : Type :=
  { id : value; name : value; model : value; type : value }.

(** The object [base] of [tick] *)
Record base : Type :=
  { ts : string;
    probeResult : probe;
    wanUp : option bool;
    wan : value;
    wanGroups : option (list value);
    unifiError : option string;
    gatewayInfo : option gateway }.

(** A history entry: [{ ...base, state, reason, note }] *)
Record entry : Type :=
  { entry_state : healthState;
    entry_base : base;
    reason : string;
    note : option string }.

(** What one cycle reads from the outside: the wall clock (one reading per
    cycle), the device query (its error message when it throws), the probe,
    and the WAN network groups query ([None] when it throws). *)
Record cycle : Type :=
  { clock : string;
    devicesQuery : string + list value;
    probed : probe;
    wanGroupsQuery : option value }.

(** The groups array looked for in the response of the WAN groups query *)
Definition groupsOf (resp : value) : value :=
  nullish
    (nullish
       (nullish (get resp "wan_network_groups") (get resp "wanNetworkGroups"))
       (get resp "data"))
    (if isArray resp then resp else VNull).

(** Lines 76-96 of [tick]: the WAN verdict, the primary group and the
    groups, from the selected gateway and the groups query *)
Definition reconcile (gw : value) (q : option value)
  : option bool * value * option (list value) :=
  let wanUp := Unifi.readWanUp gw in
  match q with
  | None => (wanUp, VNull, None)
  | Some resp =>
      match groupsOf resp with
      | VArr gs =>
          let status := Unifi.readWanStatusFromGroups (VArr gs) in
          (match Unifi.up status with
           | Some b => Some b
           | None => wanUp
           end,
           Unifi.primary status, Some gs)
      | _ => (wanUp, VNull, None)
      end
  end.

(** Lines 64-109 of [tick] *)
Definition observe (c : cycle) : base :=
  let devices := match devicesQuery c with inl _ => [] | inr ds => ds end in
  let unifiError := match devicesQuery c with inl e => Some e | inr _ => None end in
  let gw := Unifi.pickGateway devices in
  let '(wanUp, wan, wanGroups) := reconcile gw (wanGroupsQuery c) in
  {| ts := clock c;
     probeResult := probed c;
     wanUp := wanUp;
     wan := wan;
     wanGroups := wanGroups;
     unifiError := unifiError;
     gatewayInfo :=
       if truthy gw
       then Some {| id := get gw "id"; name := get gw "name";
                    model := get gw "model"; type := get gw "type" |}
       else None |}.

(** The fields of a [Monitor].  The counters and the thresholds are integers
    and the capacity is a count of entries, as the defaults are. *)
Record monitor : Type :=
  { state : healthState;
    fail : Z;
    succ : Z;
    degradedAfterFails : Z;
    downAfterFails : Z;
    okAfterSucc : Z;
    history : list entry;
    maxHistory : nat;
    lastEntry : option entry }.

(** [new Monitor()] with thresholds and capacity from the environment *)
Definition create (degraded down ok : Z) (capacity : nat) : monitor :=
  {| state := UNKNOWN; fail := 0; succ := 0;
     degradedAfterFails := degraded; downAfterFails := down; okAfterSucc := ok;
     history := []; maxHistory := capacity; lastEntry := None |}.

(** The defaults: 2, 4, 2 and 300 *)
Definition createDefault : monitor := create 2 4 2 300.

Definition setCounters (m : monitor) (f s : Z) : monitor :=
  {| state := state m; fail := f; succ := s;
     degradedAfterFails := degradedAfterFails m;
     downAfterFails := downAfterFails m; okAfterSucc := okAfterSucc m;
     history := history m; maxHistory := maxHistory m;
     lastEntry := lastEntry m |}.

(** [unshift] then cut to [maxHistory] *)
Definition pushed (capacity : nat) (e : entry) (h : list entry) : list entry :=
  let h' := e :: h in
  if Nat.ltb capacity (List.length h') then firstn capacity h' else h'.

Definition pushHistory (m : monitor) (e : entry) : monitor :=
  {| state := state m; fail := fail m; succ := succ m;
     degradedAfterFails := degradedAfterFails m;
     downAfterFails := downAfterFails m; okAfterSucc := okAfterSucc m;
     history := pushed (maxHistory m) e (history m);
     maxHistory := maxHistory m;
     lastEntry := Some e |}.

(** What [setState] and [tick] return, without the snapshot, which aliases
    the monitor's own state and history *)
Record outcome : Type :=
  { entryOf : entry; prev : healthState; next : healthState; changed : bool }.

Section Subscriber.

(** [this.onChange], given the clock reading and [{ prev, next, entry }];
    [E] is what the subscriber does. *)
Context {E : Type}.
Variable onChange : string -> healthState -> healthState -> entry -> list E.

Definition setState (m : monitor) (next : healthState)
    (b : base) (reason : string) (note : option string)
  : monitor * outcome * list E :=
  let prev := state m in
  let e := {| entry_state := next; entry_base := b;
              reason := reason; note := note |} in
  let m1 :=
    {| state := next; fail := fail m; succ := succ m;
       degradedAfterFails := degradedAfterFails m;
       downAfterFails := downAfterFails m; okAfterSucc := okAfterSucc m;
       history := history m; maxHistory := maxHistory m;
       lastEntry := lastEntry m |} in
  let m2 := pushHistory m1 e in
  let changed := negb (healthState_eqb prev next) in
  (m2,
   {| entryOf := e; prev := prev; next := next; changed := changed |},
   if changed then onChange (ts b) prev next e else []).

(** A soft entry: the state is kept, the entry is pushed, nobody is told. *)
Definition soft (m : monitor) (b : base) (reason : string) (note : string)
  : monitor * outcome * list E :=
  let e := {| entry_state := state m; entry_base := b;
              reason := reason; note := Some note |} in
  (pushHistory m e,
   {| entryOf := e; prev := state m; next := state m; changed := false |},
   []).

(** Lines 111-167 of [tick] *)
Definition step (m : monitor) (b : base) : monitor * outcome * list E :=
  match wanUp b with
  | Some false =>
      setState (setCounters m 0 0) DOWN b "WAN_LINK_DOWN" None
  | _ =>
      if negb (ok (probeResult b)) then
        let m1 := setCounters m (fail m + 1) 0 in
        let note := "failCount=" ++ showZ (fail m1) in
        if Z.leb (downAfterFails m1) (fail m1) then
          setState m1 DOWN b "PROBE_DOWN" (Some note)
        else if Z.leb (degradedAfterFails m1) (fail m1) then
          setState m1 DEGRADED b "PROBE_DEGRADED" (Some note)
        else soft m1 b "PROBE_FAIL_SOFT" note
      else
        let m1 := setCounters m 0 (succ m + 1) in
        let note := "okCount=" ++ showZ (succ m1) in
        if healthState_eqb (state m1) UNKNOWN || Z.leb (okAfterSucc m1) (succ m1) then
          setState m1 OK b "PROBE_OK" (Some note)
        else soft m1 b "PROBE_OK_SOFT" note
  end.

Definition tick (m : monitor) (c : cycle) : monitor * outcome * list E :=
  step m (observe c).

(** Consecutive cycles: the final monitor, the outcomes and what the
    subscriber did, in order *)
Fixpoint run (m : monitor) (cs : list cycle)
  : monitor * list outcome * list E :=
  match cs with
  | [] => (m, [], [])
  | c :: rest =>
      let '(m1, o, es) := tick m c in
      let '(m2, os, es') := run m1 rest in
      (m2, o :: os, (es ++ es')%list)
  end.

End Subscriber.

End Monitor.

(** ** src/server.mjs: the subscriber of state changes and the interval *)

Module Server.
Import JS Monitor.

Inductive kind : Type := INTERNET_DOWN | INTERNET_RESTORED.

(** One line of the audit log *)
Record event : Type :=
  { ev_ts : string;
    ev_kind : kind;
    ev_prev : healthState;
    ev_next : healthState;
    ev_probe : probe;
    ev_wanUp : option bool;
    ev_gateway : option gateway;
    ev_note : string }.

(** Messages pushed to the connected observers *)
Inductive message : Type :=
| state_change (prev next : healthState) (label : string) (e : entry)
| tick_message (state : healthState) (label : string) (e : entry).

Inductive effect : Type :=
| broadcast (msg : message)
| appendEvent (ev : event).

Definition auditRecord (now : string) (k : kind)
    (prev next : healthState) (e : entry) : event :=
  {| ev_ts := now; ev_kind := k; ev_prev := prev; ev_next := next;
     ev_probe := probeResult (entry_base e);
     ev_wanUp := wanUp (entry_base e);
     ev_gateway := gatewayInfo (entry_base e);
     ev_note := match note e with Some n => n | None => reason e end |}.

(** [monitor.onChange] as the server sets it *)
Definition onChange (now : string) (prev next : healthState) (e : entry)
  : list effect :=
  ([broadcast (state_change prev next (stateLabel next) e)]
   ++ (if healthState_eqb next DOWN
       then [appendEvent (auditRecord now INTERNET_DOWN prev next e)]
       else [])
   ++ (if healthState_eqb prev DOWN && healthState_eqb next OK
       then [appendEvent (auditRecord now INTERNET_RESTORED prev next e)]
       else []))%list.

(** The audit records among the effects, in order *)
Fixpoint auditLog (es : list effect) : list event :=
  match es with
  | [] => []
  | appendEvent ev :: rest => ev :: auditLog rest
  | broadcast _ :: rest => auditLog rest
  end.

(** The body of the [setInterval] callback *)
Definition onInterval (m : monitor) (c : cycle) : monitor * list effect :=
  let '(m1, o, es) := tick onChange m c in
  (m1,
   (es ++ [broadcast (tick_message (state m1) (stateLabel (state m1))
                                   (entryOf o))])%list).

End Server.

(** ** unifi-monitor.mjs: cookie client, first state machine, main loop *)

Module Legacy.
Import JS.
Local Open Scope Z_scope.

Definition newline : string := String (ascii_of_nat 10) "".

(** The part of [ENV] the modelled code reads *)
Record env : Type :=
  { BASE_URL : string;
    UNIFI_SITE : string;
    UNIFI_USERNAME : string;
    UNIFI_PASSWORD : string;
    PROBE_FAILS_FOR_DEGRADED : Z;
    PROBE_SUCCESSES_FOR_OK : Z }.

(** *** URL helper *)

Fixpoint span (p : ascii -> bool) (s : string) : string * string :=
  match s with
  | EmptyString => ("", "")
  | String c rest =>
      if p c then let '(a, b) := span p rest in (String c a, b)
      else ("", s)
  end.

Definition isDigit (c : ascii) : bool :=
  match digitOf 10 c with Some _ => true | None => false end.

(** A line terminator, which [.] does not match: LF, CR, U+2028, U+2029 *)
Fixpoint hasLineTerminator (s : string) : bool :=
  match s with
  | EmptyString => false
  | String c rest =>
      let n := nat_of_ascii c in
      if (Nat.eqb n 10 || Nat.eqb n 13)%bool then true
      else if (String.prefix (String (ascii_of_nat 226) (String (ascii_of_nat 128)
                                (String (ascii_of_nat 168) ""))) s
               || String.prefix (String (ascii_of_nat 226) (String (ascii_of_nat 128)
                                (String (ascii_of_nat 169) ""))) s)%bool then true
      else hasLineTerminator rest
  end.

(** The three groups of the regular expression of [withPort]: scheme and
    host name (http or https in any case, then at least one character other
    than slash and colon), an optional colon with digits, an optional path
    from a slash to the end of the string. *)
Definition matchUrl (url : string) : option (string * option string * string) :=
  let scheme :=
    if String.eqb (foldCase (substring 0 8 url)) "https://" then Some 8%nat
    else if String.eqb (foldCase (substring 0 7 url)) "http://" then Some 7%nat
    else None in
  match scheme with
  | None => None
  | Some n =>
      let afterScheme := substring n (String.length url - n) url in
      let '(hostname, r1) :=
        span (fun c => negb (Ascii.eqb c "/" || Ascii.eqb c ":")%bool) afterScheme in
      if String.eqb hostname "" then None
      else
        let host := substring 0 n url ++ hostname in
        let portAndRest :=
          match r1 with
          | String ":" r2 =>
              let '(ds, r3) := span isDigit r2 in
              if String.eqb ds "" then None else Some (Some (":" ++ ds), r3)
          | _ => Some (None, r1)
          end in
        match portAndRest with
        | None => None
        | Some (existingPort, r) =>
            match r with
            | EmptyString => Some (host, existingPort, "")
            | String "/" _ =>
                if hasLineTerminator r then None
                else Some (host, existingPort, r)
            | _ => None
            end
        end
  end.

Definition withPort (url : string) (port : Z) : string :=
  match matchUrl url with
  | None => url
  | Some (host, Some existingPort, path) => host ++ existingPort ++ path
  | Some (host, None, path) => host ++ ":" ++ showZ port ++ path
  end.

(** *** Cookies *)

(** [c.split(";")[0]] *)
Definition beforeSemicolon (c : string) : string :=
  fst (span (fun a => negb (Ascii.eqb a ";")) c).

Definition mergeCookies (setCookies : list string) : string :=
  join "; "
    (filter (fun c => negb (String.eqb c "")) (map beforeSemicolon setCookies)).

(** *** The client and the network it talks to *)

Inductive dialect : Type := unifios | legacy.

Definition dialectName (d : option dialect) : string :=
  match d with
  | Some unifios => "unifios"
  | Some legacy => "legacy"
  | None => "null"
  end.

Record client : Type :=
  { baseUrl : string;
    mode : string;
    cookie : string;
    effectiveMode : option dialect;
    baseUrlEffective : option string }.

Definition newClient (baseUrl mode : string) : client :=
  {| baseUrl := baseUrl; mode := mode; cookie := "";
     effectiveMode := None; baseUrlEffective := None |}.

Record httpRequest : Type :=
  { method : string;
    url : string;
    cookieHeader : option string;
    body : option value }.

(** A response: status, body text, the body parsed as JSON when it parses,
    and the Set-Cookie headers *)
Record response : Type :=
  { status : Z;
    text : string;
    json : option value;
    setCookies : list string }.

Definition resOk (r : response) : bool :=
  (Z.leb 200 (status r) && Z.leb (status r) 299)%bool.

(** What the other side answers to the n-th exchange: a response, or the
    message of the error [fetch] rejects with *)
Definition network : Type := nat -> httpRequest -> string + response.

(** The client, the number of exchanges made and the requests sent so far *)
Record world : Type :=
  { self : client;
    exchanges : nat;
    sent : list httpRequest }.

(** How an asynchronous call ends; [pending] is a call that has not ended
    within the number of nested calls allowed. *)
Inductive result (A : Type) : Type :=
| returned (a : A)
| thrown (msg : string)
| pending.
Arguments returned {A} a.
Arguments thrown {A} msg.
Arguments pending {A}.

Definition M (A : Type) : Type := world -> result A * world.

Definition ret {A} (a : A) : M A := fun w => (returned a, w).
Definition throw {A} (msg : string) : M A := fun w => (thrown msg, w).
Definition bind {A B} (m : M A) (k : A -> M B) : M B :=
  fun w =>
    match m w with
    | (returned a, w1) => k a w1
    | (thrown msg, w1) => (thrown msg, w1)
    | (pending, w1) => (pending, w1)
    end.
Definition tryCatch {A} (m : M A) (handler : string -> M A) : M A :=
  fun w =>
    match m w with
    | (thrown msg, w1) => handler msg w1
    | other => other
    end.

Notation "x <- m ;; k" := (bind m (fun x => k))
  (at level 61, m at next level, right associativity).
Notation "m ;;; k" := (bind m (fun _ => k))
  (at level 61, right associativity).

Definition getSelf : M client := fun w => (returned (self w), w).
Definition setSelf (c : client) : M unit :=
  fun w => (returned tt, {| self := c; exchanges := exchanges w; sent := sent w |}).

Definition setCookie (v : string) : M unit :=
  c <- getSelf ;;
  setSelf {| baseUrl := baseUrl c; mode := mode c; cookie := v;
             effectiveMode := effectiveMode c;
             baseUrlEffective := baseUrlEffective c |}.

Definition setEffective (d : dialect) (b : string) : M unit :=
  c <- getSelf ;;
  setSelf {| baseUrl := baseUrl c; mode := mode c; cookie := cookie c;
             effectiveMode := Some d; baseUrlEffective := Some b |}.

Section Client.

Variable ENV : env.
Variable net : network.

Definition fetch (req : httpRequest) : M response :=
  fun w =>
    let w1 := {| self := self w; exchanges := S (exchanges w);
                 sent := (sent w ++ [req])%list |} in
    match net (exchanges w) req with
    | inl msg => (thrown msg, w1)
    | inr r => (returned r, w1)
    end.

Definition credentials : value :=
  VObj [("username", VStr (UNIFI_USERNAME ENV));
        ("password", VStr (UNIFI_PASSWORD ENV))].

(** [loginUniFiOS] and [loginLegacy] differ in the endpoint, the dialect
    they establish and the wording of their errors. *)
Definition login (d : dialect) (endpoint wording : string) (base : string)
  : M unit :=
  res <- fetch {| method := "POST"; url := base ++ endpoint;
                  cookieHeader := None; body := Some credentials |} ;;
  if negb (resOk res) then
    throw (wording ++ " login falhou: HTTP " ++ showZ (status res) ++ " " ++ text res)
  else
    setCookie (mergeCookies (setCookies res)) ;;;
    c <- getSelf ;;
    if String.eqb (cookie c) "" then
      throw (wording ++ " login OK, mas sem cookie (Set-Cookie ausente).")
    else setEffective d base.

Definition loginUniFiOS : string -> M unit := login unifios "/api/auth/login" "UniFiOS".
Definition loginLegacy : string -> M unit := login legacy "/api/login" "Legacy".

Definition loggedIn (c : client) : bool :=
  (negb (String.eqb (cookie c) "")
   && match effectiveMode c with Some _ => true | None => false end
   && match baseUrlEffective c with
      | Some b => negb (String.eqb b "")
      | None => false
      end)%bool.

Definition ensureLogin : M unit :=
  c <- getSelf ;;
  if loggedIn c then ret tt
  else
    let base := baseUrl c in
    let base8443 := withPort base 8443 in
    if String.eqb (mode c) "unifios" then loginUniFiOS base
    else if String.eqb (mode c) "legacy" then loginLegacy base8443
    else
      tryCatch (loginUniFiOS base)
        (fun e1 =>
           tryCatch (loginLegacy base8443)
             (fun e2 =>
                throw ("Falhou login em auto." ++ newline
                       ++ "- UniFi OS: " ++ e1 ++ newline
                       ++ "- Legacy(8443): " ++ e2))).

Definition unauthorized (r : response) : bool :=
  (Z.eqb (status r) 401 || Z.eqb (status r) 403)%bool.

(** [request(path, { method, body })].  The method calls itself after a
    re-login; [depth] bounds how many calls may nest before the model gives
    up with [pending]. *)
Fixpoint request (depth : nat) (path method : string) (body : value) : M value :=
  match depth with
  | O => fun w => (pending, w)
  | S depth' =>
      ensureLogin ;;;
      c <- getSelf ;;
      res <- fetch {| Legacy.method := method;
                      url := match baseUrlEffective c with
                             | Some b => b
                             | None => "null"
                             end ++ path;
                      cookieHeader := Some (cookie c);
                      Legacy.body := if truthy body then Some body else None |} ;;
      if unauthorized res then
        setCookie "" ;;;
        ensureLogin ;;;
        request depth' path method body
      else if negb (resOk res) then
        throw ("HTTP " ++ showZ (status res) ++ " em " ++ path ++ ": " ++ text res)
      else
        match json res with
        | Some v => ret v
        | None => throw "Unexpected token in JSON"
        end
  end.

End Client.

(** The requests among [sent] that went to [u] with method [m] *)
Definition attempts (m u : string) (sent : list httpRequest) : nat :=
  List.length
    (filter (fun r => (String.eqb (method r) m && String.eqb (url r) u)%bool) sent).

(** *** Readers of the controller payload *)

Definition pickUSG (devices : value) : value :=
  let arr := match devices with VArr ds => ds | _ => [] end in
  orElse
    (orElse
       (find (fun d => match get d "type" with
                       | VStr t => String.eqb t "ugw"
                       | _ => false
                       end) arr)
       (find (fun d =>
                includes (toUpperCase (toString (nullish (get d "model") (VStr ""))))
                         "USG") arr))
    VNull.

Definition readWanUpFromUSG (usg : value) : option bool :=
  let u := get usg "uplink" in
  match asBoolean (get u "up") with
  | Some b => Some b
  | None =>
      match u with
      | VArr us =>
          let wan :=
            nullish
              (find (fun x =>
                       includes
                         (toLowerCase (toString (nullish (get x "name") (VStr ""))))
                         "wan") us)
              (match us with x :: _ => x | [] => VUndefined end) in
          asBoolean (get wan "up")
      | _ => None
      end
  end.

Definition parseDataEnvelope (json : value) : value :=
  if negb (truthy json) then VArr []
  else if isArray json then json
  else if isArray (get json "data") then get json "data"
  else if isArray (get json "results") then get json "results"
  else if isArray (get json "rows") then get json "rows"
  else VArr [].

Definition wanHealthFromHealth (healthArr : list value) : value :=
  nullish
    (find (fun h =>
             String.eqb
               (toLowerCase (toString (nullish (get h "subsystem") (VStr ""))))
               "wan") healthArr)
    VNull.

(** *** State machine (hysteresis) *)

Import Monitor(healthState, OK, DEGRADED, DOWN, UNKNOWN, healthState_eqb).

Definition labelState (s : healthState) : string :=
  match s with
  | DOWN => "🔴 WAN/INTERNET DOWN"
  | DEGRADED => "🟠 INSTABILIDADE / PROBE FALHANDO"
  | UNKNOWN => "⚪ STATUS DESCONHECIDO"
  | OK => "🟢 OK"
  end.

Record HealthStateMachine : Type :=
  { state : healthState;
    failCount : Z;
    successCount : Z }.

Definition newMachine : HealthStateMachine :=
  {| state := UNKNOWN; failCount := 0; successCount := 0 |}.

(** [update({ wanUp, probeOk })]; the value returned is the new [state]. *)
Definition update (ENV : env) (sm : HealthStateMachine)
    (wanUp : option bool) (probeOk : bool) : HealthStateMachine :=
  match wanUp with
  | Some false => {| state := DOWN; failCount := 0; successCount := 0 |}
  | _ =>
      if negb probeOk then
        let failCount := failCount sm + 1 in
        {| state := if Z.leb (PROBE_FAILS_FOR_DEGRADED ENV) failCount
                    then DEGRADED else state sm;
           failCount := failCount;
           successCount := 0 |}
      else
        let successCount := successCount sm + 1 in
        let s1 := if Z.leb (PROBE_SUCCESSES_FOR_OK ENV) successCount
                  then OK else state sm in
        {| state := if healthState_eqb s1 UNKNOWN then OK else s1;
           failCount := 0;
           successCount := successCount |}
  end.

(** *** Main loop *)

(** Result of [httpProbe] *)
Record httpProbeResult : Type := { ok : bool; probeUrl : string }.

Record usgInfo : Type :=
  { usg_name : value; usg_model : value; usg_ip : value; usg_version : value }.

Record details : Type :=
  { d_baseUrl : string;
    d_site : string;
    d_mode : option dialect;
    d_probe : httpProbeResult;
    d_wanUp : option bool;
    d_wanHealth : value;
    d_usg : option usgInfo }.

(** Payloads handed to [postWebhook] *)
Inductive alert : Type :=
| stateAlert (text ts : string) (state : healthState) (d : details)
| unknownAlert (text ts : string).

(** What survives from one iteration of the loop to the next *)
Record loop : Type :=
  { sm : HealthStateMachine;
    lastNotifiedState : option healthState }.

Definition start : loop :=
  {| sm := newMachine; lastNotifiedState := None |}.

Definition showWanUp (w : option bool) : string :=
  match w with
  | None => "null"
  | Some true => "true"
  | Some false => "false"
  end.

Definition sameState (s : healthState) (l : option healthState) : bool :=
  match l with
  | Some s' => healthState_eqb s s'
  | None => false
  end.

(** One iteration of the [for (;;)] of [main].  [controller] is how
    [Promise.all] over the two controller reads ended: the message of the
    error, or the two bodies; the probe never throws. *)
Definition iteration (ENV : env) (effective : option dialect) (l : loop)
    (ts : string) (controller : string + (value * value))
    (probe : httpProbeResult) : loop * list alert :=
  match controller with
  | inr (devicesJson, healthJson) =>
      let devices := parseDataEnvelope devicesJson in
      let healthArr := match parseDataEnvelope healthJson with
                       | VArr hs => hs
                       | _ => []
                       end in
      let usg := pickUSG devices in
      let wanUp := readWanUpFromUSG usg in
      let wanHealth := wanHealthFromHealth healthArr in
      let sm1 := update ENV (sm l) wanUp (ok probe) in
      let nextState := state sm1 in
      let usgName :=
        nullish (nullish (get usg "name") (get usg "model")) (VStr "USG?") in
      if negb (sameState nextState (lastNotifiedState l)) then
        ({| sm := sm1; lastNotifiedState := Some nextState |},
         [stateAlert
            (labelState nextState ++ " | usg=" ++ toString usgName
             ++ " | wanUp=" ++ showWanUp wanUp
             ++ " | probeOk=" ++ (if ok probe then "true" else "false")
             ++ " | mode=" ++ dialectName effective)
            ts nextState
            {| d_baseUrl := BASE_URL ENV; d_site := UNIFI_SITE ENV;
               d_mode := effective; d_probe := probe; d_wanUp := wanUp;
               d_wanHealth := wanHealth;
               d_usg := if truthy usg
                        then Some {| usg_name := get usg "name";
                                     usg_model := get usg "model";
                                     usg_ip := get usg "ip";
                                     usg_version := get usg "version" |}
                        else None |}])
      else ({| sm := sm1; lastNotifiedState := lastNotifiedState l |}, [])
  | inl msg =>
      if negb (healthState_eqb (state (sm l)) UNKNOWN) then
        ({| sm := {| state := UNKNOWN; failCount := failCount (sm l);
                     successCount := successCount (sm l) |};
            lastNotifiedState := Some UNKNOWN |},
         [unknownAlert ("⚠️ Monitor UNKNOWN: " ++ msg) ts])
      else (l, [])
  end.

End Legacy.

(** ** The dashboard page: tick merge and reconnection *)

Module Observer.
Import JS.
Import Monitor(healthState, OK, DEGRADED, DOWN, UNKNOWN, stateName).

Record Probe : Type := { ok : bool; url : option string; ms : option Z }.

Record HistoryItem : Type :=
  { ts : string;
    item_state : healthState;
    wanUp : option bool;
    wan : value;
    wanGroups : value;
    probe : option Probe;
    gateway : value;
    note : option string;
    reason : option string;
    unifiError : option string }.

Record StatusPayload : Type :=
  { state : healthState;
    label : string;
    history : list HistoryItem }.

Inductive WSMessage : Type :=
| snapshot (data : StatusPayload) (label : string)
| tick (entry : HistoryItem) (state : option healthState) (label : option string)
| state_change.

(** The dedup key: timestamp, state, probe latency or the sentinel *)
Definition key (h : HistoryItem) : string :=
  ts h ++ "|" ++ stateName (item_state h) ++ "|"
  ++ match probe h with
     | Some p => match ms p with Some z => showZ z | None => "x" end
     | None => "x"
     end.

(** The local cap on the history *)
Definition localCap : nat := 250.

(** The updater handed to [setData] in the tick branch of [ws.onmessage] *)
Definition mergeTick (entry : HistoryItem) (msgState : option healthState)
    (msgLabel : option string) (prev : option StatusPayload) : StatusPayload :=
  let prevHist := match prev with Some p => history p | None => [] end in
  let k := key entry in
  let has := existsb (fun h => String.eqb (key h) k) prevHist in
  let nextHist := if has then prevHist else firstn localCap (entry :: prevHist) in
  {| state := match msgState with Some s => s | None => item_state entry end;
     label := match msgLabel with
              | Some l => l
              | None => match prev with Some p => label p | None => "" end
              end;
     history := nextHist |}.

(** [ws.onmessage] on the page's [data]; the boolean asks for [load()]. *)
Definition onmessage (msg : WSMessage) (data : option StatusPayload)
  : option StatusPayload * bool :=
  match msg with
  | snapshot snap l =>
      (Some {| state := state snap; label := l; history := history snap |}, false)
  | tick entry s l => (Some (mergeTick entry s l data), false)
  | state_change => (data, true)
  end.

(** [load()] once the request for the status has settled: the status read
    replaces [data] as it is; a failure ([inl], the message) only sets the
    error banner. *)
Definition load (settled : string + StatusPayload)
    (data : option StatusPayload) : option StatusPayload :=
  match settled with
  | inr json => Some json
  | inl _ => data
  end.

(** *** Reconnection *)

Local Open Scope N_scope.

Definition baseDelay : N := 500.
Definition maxDelay : N := 15000.
Definition maxAttempt : N := 8.

(** [scheduleReconnect]: the new value of [wsRetryRef.current] and the delay
    given to [setTimeout], in milliseconds *)
Definition scheduleReconnect (wsRetry : N) : N * N :=
  let attempt := N.min maxAttempt (wsRetry + 1) in
  (attempt, N.min maxDelay (baseDelay * 2 ^ attempt)).

(** [ws.onopen] on the counter *)
Definition onopen (wsRetry : N) : N := 0.

(** What happens to a connection attempt *)
Inductive attemptResult : Type := opened | failed.

(** The counter and the delays scheduled, over consecutive results *)
Fixpoint reconnects (wsRetry : N) (rs : list attemptResult) : N * list N :=
  match rs with
  | [] => (wsRetry, [])
  | opened :: rest => reconnects (onopen wsRetry) rest
  | failed :: rest =>
      let '(r1, d) := scheduleReconnect wsRetry in
      let '(r2, ds) := reconnects r1 rest in
      (r2, d :: ds)
  end.

End Observer.

(** ** src/probe.mjs and [httpProbe]: the active probe *)

Module Probe.
Import JS.

(** How one [fetch] of a target ends: rejected (also when the timeout
    aborts it), or answered with [res.ok] after so many milliseconds *)
Inductive reply : Type :=
| rejected
| responded (ok : bool) (elapsed : Z).

(** What the target of the n-th fetch of a probe answers *)
Definition targets : Type := nat -> string -> reply.

Definition defaultTarget : string := "https://one.one.one.one/cdn-cgi/trace".

(** The [for (const url of urls)] loop: the first target that answers ok *)
Fixpoint firstOk (net : targets) (n : nat) (urls : list string)
  : option (string * Z) :=
  match urls with
  | [] => None
  | u :: rest =>
      match net n u with
      | responded true elapsed => Some (u, elapsed)
      | _ => firstOk net (S n) rest
      end
  end.

Definition effectiveUrls (probeUrls : list string) : list string :=
  match probeUrls with
  | [] => [defaultTarget]
  | _ => probeUrls
  end.

(** [probeInternet()] with [CONFIG.probeUrls] *)
Definition probeInternet (probeUrls : list string) (net : targets)
  : Monitor.probe :=
  let urls := effectiveUrls probeUrls in
  match firstOk net 0 urls with
  | Some (u, elapsed) =>
      {| Monitor.ok := true; Monitor.url := u; Monitor.ms := Some elapsed |}
  | None =>
      {| Monitor.ok := false;
         Monitor.url := match urls with u :: _ => u | [] => "" end;
         Monitor.ms := None |}
  end.

(** How the target of the n-th fetch behaves, whatever the patience of the
    caller: the connection fails, or the response arrives after so many
    milliseconds, with [res.ok] *)
Inductive behaviour : Type :=
| refuses
| answers (ok : bool) (after : Z).

Definition servers : Type := nat -> string -> behaviour.

(** [fetch] next to [setTimeout(() => controller.abort(), timeoutMs)]: the
    timer is set first, and a response that has not arrived when it fires is
    aborted, so that the fetch rejects. *)
Definition withTimeout (timeoutMs : Z) (s : servers) : targets :=
  fun n u =>
    match s n u with
    | refuses => rejected
    | answers ok after =>
        if Z.ltb after timeoutMs then responded ok after else rejected
    end.

(** The timeouts when the environment sets none: [CONFIG.probeTimeoutMs] of
    config.mjs and [ENV.PROBE_TIMEOUT_MS] of unifi-monitor.mjs *)
Definition probeTimeoutMs : Z := 3500.
Definition PROBE_TIMEOUT_MS : Z := 3000.

(** [httpProbe(urls, timeoutMs)] of unifi-monitor.mjs *)
Definition httpProbe (urls : list string) (timeoutMs : Z) (s : servers)
  : Legacy.httpProbeResult :=
  match firstOk (withTimeout timeoutMs s) 0 urls with
  | Some (u, _) => {| Legacy.ok := true; Legacy.probeUrl := u |}
  | None =>
      {| Legacy.ok := false;
         Legacy.probeUrl := match urls with u :: _ => u | [] => "" end |}
  end.

End Probe.

(** ** src/unifi.mjs: the [UnifiApi] class *)

Module UnifiApi.
Import JS.
Import Legacy(response, status, text, json, resOk, result, returned, thrown,
              pending).

Record api : Type := { base : string; key : string }.

Record httpGet : Type := { url : string; apiKeyHeader : string }.

(** What the controller answers to the n-th request *)
Definition controller : Type := nat -> httpGet -> string + response.

(** [get(path)]: the parsed body, or the message of the error thrown *)
Definition get (a : api) (net : controller) (n : nat) (path : string)
  : string + value :=
  match net n {| url := base a ++ path; apiKeyHeader := key a |} with
  | inl msg => inl msg
  | inr res =>
      if negb (resOk res) then
        inl ("UniFi GET " ++ path ++ " -> HTTP " ++ showZ (status res)
             ++ " " ++ text res)
      else match json res with
           | Some v => inr v
           | None => inl "Unexpected token in JSON"
           end
  end.

Definition limit : nat := 200.

Definition devicesPath (siteId : string) (offset : nat) : string :=
  "/proxy/network/integration/v1/sites/" ++ siteId ++ "/devices?limit="
  ++ showZ (Z.of_nat limit) ++ "&offset=" ++ showZ (Z.of_nat offset).

Definition listDevices (a : api) (net : controller) (n : nat)
    (siteId : string) (offset : nat) : string + value :=
  get a net n (devicesPath siteId offset).

(** The [for (;;)] of [getAllDevices] from the n-th request on; [rounds]
    bounds the pages read before the model gives up with [pending].  The
    second component counts the requests made. *)
Fixpoint pages (rounds : nat) (a : api) (net : controller) (n : nat)
    (siteId : string) (offset : nat) (out : list value)
  : result (list value) * nat :=
  match rounds with
  | O => (pending, n)
  | S rounds' =>
      match listDevices a net n siteId offset with
      | inl msg => (thrown msg, S n)
      | inr page =>
          let data := match JS.get page "data" with
                      | VArr ds => ds
                      | _ => []
                      end in
          let out' := (out ++ data)%list in
          if Nat.ltb (List.length data) limit then (returned out', S n)
          else pages rounds' a net (S n) siteId (offset + limit) out'
      end
  end.

Definition getAllDevices (rounds : nat) (a : api) (net : controller)
    (siteId : string) : result (list value) * nat :=
  pages rounds a net 0 siteId 0 [].

Definition wanGroupsPath (siteId : string) : string :=
  "/proxy/network/v2/api/site/" ++ siteId ++ "/wan/networkgroups".

(** [listWanNetworkGroups(siteId)] from the n-th request on, with the
    number of requests made *)
Definition listWanNetworkGroups (a : api) (net : controller) (n : nat)
    (siteId : string) : (string + value) * nat :=
  match get a net n (wanGroupsPath siteId) with
  | inr v => (inr v, 1%nat)
  | inl e =>
      if (negb (String.eqb siteId "") && negb (String.eqb siteId "default"))%bool
      then match get a net (S n) (wanGroupsPath "default") with
           | inr v => (inr v, 2%nat)
           | inl _ => (inl e, 2%nat)
           end
      else (inl e, 1%nat)
  end.

End UnifiApi.

(** ** src/logger.mjs: reading the audit file back *)

Module Logger.
Import JS.

Definition lineFeed : ascii := ascii_of_nat 10.

(** [content.split("\n")] *)
Fixpoint split (content : string) : list string :=
  match content with
  | EmptyString => [""]
  | String c rest =>
      if Ascii.eqb c lineFeed then "" :: split rest
      else match split rest with
           | first :: others => String c first :: others
           | [] => [String c ""]
           end
  end.

(** [content.split("\n").filter(Boolean)] *)
Definition lines (content : string) : list string :=
  filter (fun l => negb (String.eqb l "")) (split content).

(** [Number(x) || fallback] on a number *)
Definition orDefault (x : number) (fallback : Z) : Z :=
  match x with
  | NaN => fallback
  | Num z => if Z.eqb z 0 then fallback else z
  end.

(** [Math.max(1, Math.min(2000, Number(limit) || 200))] *)
Definition clampLimit (limit : number) : Z :=
  Z.max 1 (Z.min 2000 (orDefault limit 200)).


(** [arr.slice(-k)] for a positive k *)
Definition lastN {A : Type} (k : nat) (l : list A) : list A :=
  skipn (List.length l - k) l.

Section Parsing.

(** [JSON.stringify] and [JSON.parse] ([None] when it throws) on the
    records kept in the file *)
Context {A : Type}.
Variable stringify : A -> string.
Variable parse : string -> option A.

(** A line as the readers return it: parsed, or [{ raw: l }] *)
Definition readLine (l : string) : A + string :=
  match parse l with
  | Some v => inl v
  | None => inr l
  end.

(** The file: [None] while it does not exist *)
Definition appendEvent (file : option string) (event : A) : option string :=
  Some (match file with Some c => c | None => "" end
        ++ stringify event ++ String lineFeed "").

Record tail : Type := { tail_count : nat; tail_lines : list (A + string) }.

Definition readTail (file : option string) (limit : number) : tail :=
  match file with
  | None => {| tail_count := 0; tail_lines := [] |}
  | Some content =>
      let parsed :=
        map readLine (lastN (Z.to_nat (clampLimit limit)) (lines content)) in
      {| tail_count := List.length parsed; tail_lines := parsed |}
  end.



End Parsing.

End Logger.

(** ** src/server.mjs: sending to the observers *)

Module Broadcast.

(** A connected socket: its [readyState] and whether [send] throws *)
Record socket : Type :=
  { socketId : nat;
    readyState : Z;
    sendThrows : bool }.

(** [safeSend]: whether the payload was handed to the socket, and the
    value returned *)
Definition safeSend (ws : socket) : bool * bool :=
  if Z.eqb (readyState ws) 1 then
    if sendThrows ws then (false, false) else (true, true)
  else (false, true).

(** [broadcast]: the sockets that got the payload and the clients kept *)
Fixpoint broadcast (clients : list socket) : list nat * list socket :=
  match clients with
  | [] => ([], [])
  | ws :: rest =>
      let '(delivered, kept) := broadcast rest in
      let '(sent, okv) := safeSend ws in
      (if sent then socketId ws :: delivered else delivered,
       if okv then ws :: kept else kept)
  end.

End Broadcast.

(** ** unifi-monitor.mjs: the base address *)

Module BaseUrl.
Import JS.

(** [/^https?:\/\//i.test(u)] *)
Definition hasScheme (u : string) : bool :=
  (String.eqb (foldCase (substring 0 8 u)) "https://"
   || String.eqb (foldCase (substring 0 7 u)) "http://")%bool.

Fixpoint endsWithSlash (s : string) : bool :=
  match s with
  | EmptyString => false
  | String c EmptyString => Ascii.eqb c "/"
  | String _ rest => endsWithSlash rest
  end.

(** [url.slice(0, -1)] *)
Fixpoint dropLast (s : string) : string :=
  match s with
  | EmptyString => EmptyString
  | String _ EmptyString => EmptyString
  | String c rest => String c (dropLast rest)
  end.

Definition normalizeBaseUrl (url : string) : string :=
  let u := if endsWithSlash url then dropLast url else url in
  if negb (hasScheme u) then "https://" ++ u else u.

End BaseUrl.

(** ** Vocabulary of the properties and sample inputs *)

Module Scenario.
Import JS Monitor.
Local Open Scope Z_scope.

Definition devicesOf (c : cycle) : list value :=
  match devicesQuery c with inl _ => [] | inr ds => ds end.

(** The verdict the device fields give on their own *)
Definition deviceVerdict (c : cycle) : option bool :=
  Unifi.readWanUp (Unifi.pickGateway (devicesOf c)).

(** The explicit link-up field of the selected gateway, when it has one: a
    boolean among the direct fields, or else on the uplink given as an
    array *)
Definition explicitLinkUp (c : cycle) : option bool :=
  let gw := Unifi.pickGateway (devicesOf c) in
  if truthy gw then
    match Unifi.firstBoolean (Unifi.directFields gw) with
    | Some b => Some b
    | None => Unifi.uplinkArraySignal gw
    end
  else None.

(** The verdict of the WAN groups listing, when the query answers with one *)
Definition listingVerdict (c : cycle) : option bool :=
  match wanGroupsQuery c with
  | Some resp =>
      match groupsOf resp with
      | VArr gs => Unifi.up (Unifi.readWanStatusFromGroups (VArr gs))
      | _ => None
      end
  | None => None
  end.

Definition final {A B : Type} (r : monitor * A * B) : monitor := fst (fst r).
Definition outcomesOf {A B : Type} (r : monitor * A * B) : A := snd (fst r).
Definition effectsOf {A B : Type} (r : monitor * A * B) : B := snd r.

(** The states announced by consecutive cycles *)
Definition statesOf {E : Type}
    (onChange : string -> healthState -> healthState -> entry -> list E)
    (m : monitor) (cs : list cycle) : list healthState :=
  map next (outcomesOf (run onChange m cs)).

(** The entries recorded by consecutive cycles, oldest first *)
Definition entriesOf {E : Type}
    (onChange : string -> healthState -> healthState -> entry -> list E)
    (m : monitor) (cs : list cycle) : list entry :=
  map entryOf (outcomesOf (run onChange m cs)).

(** Sample payloads *)
Definition gatewayLinkDown : value :=
  VObj [("id", VStr "gw-1"); ("name", VStr "USG-Pro-4");
        ("model", VStr "USG-Pro-4"); ("type", VStr "gateway");
        ("uplink", VObj [("up", VBool false)])].

Definition gatewayLinkUp : value :=
  VObj [("id", VStr "gw-1"); ("name", VStr "USG-Pro-4");
        ("model", VStr "USG-Pro-4"); ("type", VStr "gateway");
        ("uplink", VObj [("up", VBool true)])].

Definition groupsUp : value :=
  VObj [("data", VArr [VObj [("id", VStr "WAN"); ("priority", VNum (Num 1));
                             ("port_info", VObj [("disabled", VBool false)]);
                             ("uptime", VNum (Num 100))]])].

Definition groupsDisabled : value :=
  VObj [("data", VArr [VObj [("id", VStr "WAN");
                             ("port_info", VObj [("disabled", VBool true)]);
                             ("uptime", VNum (Num 100))]])].

(** The uplinks given as an array, the one called WAN down *)
Definition gatewayUplinksDown : value :=
  VObj [("id", VStr "gw-1"); ("name", VStr "USG-Pro-4");
        ("model", VStr "USG-Pro-4"); ("type", VStr "gateway");
        ("uplink", VArr [VObj [("name", VStr "LTE backup"); ("up", VBool true)];
                         VObj [("name", VStr "WAN1"); ("up", VBool false)]])].

(** A listing without a group called WAN, whose priorities and uptimes are
    a fraction or written as text *)
Definition groupsFractional : value :=
  VObj [("data", VArr [VObj [("id", VStr "FIBER"); ("priority", VNum (Num 2));
                             ("uptime", VNum (Num 0))];
                       VObj [("id", VStr "LTE"); ("priority", VStr "1.5");
                             ("uptime", VStr "99.9")];
                       VObj [("id", VStr "DSL"); ("priority", VReal (Frac 3 1));
                             ("uptime", VNum (Num 0))]])].

Definition probeDown : probe :=
  {| ok := false; url := "https://one.one.one.one/cdn-cgi/trace"; ms := None |}.

Definition probeUp : probe :=
  {| ok := true; url := "https://one.one.one.one/cdn-cgi/trace"; ms := Some 23 |}.

(** Device says link down, listing says up, probe answers *)
Definition cycleDownVersusListing : cycle :=
  {| clock := "2025-01-01T00:00:00.000Z";
     devicesQuery := inr [gatewayLinkDown];
     probed := probeUp;
     wanGroupsQuery := Some groupsUp |}.

(** The WAN uplink of the array is down, the listing resolves to up *)
Definition cycleUplinksVersusListing : cycle :=
  {| clock := "2025-01-01T00:00:10.000Z";
     devicesQuery := inr [gatewayUplinksDown];
     probed := probeUp;
     wanGroupsQuery := Some groupsFractional |}.

(** Device says link down, no listing *)
Definition cycleLinkDown : cycle :=
  {| clock := "2025-01-01T00:00:15.000Z";
     devicesQuery := inr [gatewayLinkDown];
     probed := probeUp;
     wanGroupsQuery := None |}.

(** Link up, probe fails *)
Definition cycleProbeFails : cycle :=
  {| clock := "2025-01-01T00:00:30.000Z";
     devicesQuery := inr [gatewayLinkUp];
     probed := probeDown;
     wanGroupsQuery := None |}.

(** Link up, probe answers *)
Definition cycleHealthy : cycle :=
  {| clock := "2025-01-01T00:00:45.000Z";
     devicesQuery := inr [gatewayLinkUp];
     probed := probeUp;
     wanGroupsQuery := None |}.

(** The device query fails; [q] is what the groups query gives. *)
Definition cycleControllerFails (p : probe) (q : option value) : cycle :=
  {| clock := "2025-01-01T00:01:00.000Z";
     devicesQuery := inl "UniFi GET /devices -> HTTP 401 unauthorized";
     probed := p;
     wanGroupsQuery := q |}.

(** The same cycle with the device query answering an empty inventory *)
Definition withoutDevices (c : cycle) : cycle :=
  {| clock := clock c; devicesQuery := inr [];
     probed := probed c; wanGroupsQuery := wanGroupsQuery c |}.

(** The monitor after one healthy cycle: state OK *)
Definition healthyMonitor : monitor :=
  final (tick Server.onChange createDefault cycleHealthy).

(** Entries and tick messages as the page receives them *)
Definition item (t : string) (s : healthState) (latency : option Z)
  : Observer.HistoryItem :=
  {| Observer.ts := t; Observer.item_state := s; Observer.wanUp := Some true;
     Observer.wan := VNull; Observer.wanGroups := VNull;
     Observer.probe := Some {| Observer.ok := true; Observer.url := None;
                               Observer.ms := latency |};
     Observer.gateway := VNull; Observer.note := None;
     Observer.reason := Some "PROBE_OK"; Observer.unifiError := None |}.

Definition localView : Observer.StatusPayload :=
  {| Observer.state := OK; Observer.label := "🟢 OK";
     Observer.history := [item "2025-01-01T00:00:30.000Z" OK (Some 21);
                          item "2025-01-01T00:00:15.000Z" OK (Some 23);
                          item "2025-01-01T00:00:00.000Z" OK (Some 25)] |}.

(** An entry already held in second place, received again *)
Definition replayed : Observer.HistoryItem :=
  item "2025-01-01T00:00:15.000Z" OK (Some 23).

(** A controller that accepts every login and answers every other request
    with 401 *)
Definition controllerBase : string := "https://192.168.1.1".

Definition alwaysUnauthorized : Legacy.network :=
  fun _ req =>
    if String.eqb (Legacy.url req) (controllerBase ++ "/api/auth/login")
    then inr {| Legacy.status := 200; Legacy.text := "{}";
                Legacy.json := Some (VObj []);
                Legacy.setCookies := ["TOKEN=abc; Path=/; HttpOnly"] |}
    else inr {| Legacy.status := 401; Legacy.text := "Unauthorized";
                Legacy.json := None; Legacy.setCookies := [] |}.

Definition devicePath : string := "/proxy/network/api/s/default/stat/device".

(** A controller whose session has expired: it accepts every login and
    refuses what it is asked before the third exchange *)
Definition expiredSession : Legacy.network :=
  fun n req =>
    if String.eqb (Legacy.url req) (controllerBase ++ "/api/auth/login")
    then inr {| Legacy.status := 200; Legacy.text := "{}";
                Legacy.json := Some (VObj []);
                Legacy.setCookies := ["TOKEN=abc; Path=/; HttpOnly"] |}
    else if Nat.ltb n 3
    then inr {| Legacy.status := 401; Legacy.text := "Unauthorized";
                Legacy.json := None; Legacy.setCookies := [] |}
    else inr {| Legacy.status := 200; Legacy.text := "{}";
                Legacy.json := Some (VObj [("data", VArr [])]);
                Legacy.setCookies := [] |}.

Definition sampleEnv : Legacy.env :=
  {| Legacy.BASE_URL := controllerBase;
     Legacy.UNIFI_SITE := "default";
     Legacy.UNIFI_USERNAME := "monitor";
     Legacy.UNIFI_PASSWORD := "secret";
     Legacy.PROBE_FAILS_FOR_DEGRADED := 2;
     Legacy.PROBE_SUCCESSES_FOR_OK := 2 |}.

(** The world before the first request *)
Definition freshWorld : Legacy.world :=
  {| Legacy.self := Legacy.newClient controllerBase "auto";
     Legacy.exchanges := 0;
     Legacy.sent := [] |}.

(** The client once the controller accepted its login *)
Definition loggedInClient : Legacy.client :=
  {| Legacy.baseUrl := controllerBase; Legacy.mode := "auto";
     Legacy.cookie := "TOKEN=abc";
     Legacy.effectiveMode := Some Legacy.unifios;
     Legacy.baseUrlEffective := Some controllerBase |}.

Definition deviceRead : Legacy.httpRequest :=
  {| Legacy.method := "GET"; Legacy.url := controllerBase ++ devicePath;
     Legacy.cookieHeader := Some "TOKEN=abc"; Legacy.body := None |}.

Definition loginPost : Legacy.httpRequest :=
  {| Legacy.method := "POST";
     Legacy.url := controllerBase ++ "/api/auth/login";
     Legacy.cookieHeader := None;
     Legacy.body := Some (Legacy.credentials sampleEnv) |}.

(** How many times the device read itself was sent *)
Definition deviceAttempts (w : Legacy.world) : nat :=
  Legacy.attempts "GET" (controllerBase ++ devicePath) (Legacy.sent w).

End Scenario.

(** ** Signals of a cycle and further sample inputs *)

Module Signals.
Import JS Monitor Scenario.
Local Open Scope Z_scope.

(** The link is not reported down and the probe fails. *)
Definition failing (c : cycle) : Prop :=
  wanUp (observe c) <> Some false /\ ok (probed c) = false.

(** The link is not reported down and the probe answers. *)
Definition succeeding (c : cycle) : Prop :=
  wanUp (observe c) <> Some false /\ ok (probed c) = true.





Definition isObject (v : value) : Prop := exists fields, v = VObj fields.

(** A controller that serves an inventory page by page: the n-th request
    must ask for the n-th page and gets the devices from [n * limit] on, at
    most [limit] of them; anything else is not found. *)
Definition inventoryServer (a : UnifiApi.api) (siteId : string)
    (inventory : list value) : UnifiApi.controller :=
  fun n req =>
    if String.eqb (UnifiApi.url req)
                  (UnifiApi.base a
                   ++ UnifiApi.devicesPath siteId (n * UnifiApi.limit))
    then inr {| Legacy.status := 200; Legacy.text := "";
                Legacy.json :=
                  Some (VObj [("data",
                               VArr (firstn UnifiApi.limit
                                       (skipn (n * UnifiApi.limit) inventory)))]);
                Legacy.setCookies := [] |}
    else inr {| Legacy.status := 404; Legacy.text := "not found";
                Legacy.json := None; Legacy.setCookies := [] |}.

(** A controller that serves the first page of 250 devices and is busy
    afterwards *)
Definition busyAfterFirstPage : UnifiApi.controller :=
  fun n req =>
    if Nat.eqb n 0
    then inventoryServer {| UnifiApi.base := "https://192.168.1.1";
                            UnifiApi.key := "k-123" |}
                         "default" (repeat gatewayLinkUp 250) n req
    else inr {| Legacy.status := 503; Legacy.text := "busy";
                Legacy.json := None; Legacy.setCookies := [] |}.

(** The devices of a page as [getAllDevices] reads them *)
Definition dataOf (page : value) : list value :=
  match get page "data" with
  | VArr ds => ds
  | _ => []
  end.

Definition sampleApi : UnifiApi.api :=
  {| UnifiApi.base := "https://192.168.1.1"; UnifiApi.key := "k-123" |}.

(** A host name or address: no slash and no colon *)
Fixpoint plainHost (s : string) : bool :=
  match s with
  | EmptyString => true
  | String c rest =>
      (negb (Ascii.eqb c "/" || Ascii.eqb c ":") && plainHost rest)%bool
  end.

(** What the page's [data] reacts to: a message received on the socket, or
    a [load()] that settles.  A [load()] is started when the page mounts, by
    every [state_change] message and by the refresh button, and settles at
    any later time. *)
Inductive pageEvent : Type :=
| received (msg : Observer.WSMessage)
| settled (result : string + Observer.StatusPayload).

Definition react (ev : pageEvent) (data : option Observer.StatusPayload)
  : option Observer.StatusPayload :=
  match ev with
  | received msg => fst (Observer.onmessage msg data)
  | settled result => Observer.load result data
  end.

(** The page's [data] after a sequence of events *)
Fixpoint replay (events : list pageEvent)
    (data : option Observer.StatusPayload) : option Observer.StatusPayload :=
  match events with
  | [] => data
  | ev :: rest => replay rest (react ev data)
  end.

Definition historyLength (data : option Observer.StatusPayload) : nat :=
  match data with
  | Some p => List.length (Observer.history p)
  | None => 0
  end.

(** A status as the server gives it, with a history of [n] entries *)
Definition statusOf (n : nat) : Observer.StatusPayload :=
  {| Observer.state := OK; Observer.label := "🟢 OK";
     Observer.history :=
       map (fun k => item ("tick " ++ showZ (Z.of_nat k)) OK (Some 20))
           (seq 0 n) |}.

(** Every status among the events, pushed as a snapshot or read by
    [load()], holds at most [bound] entries. *)
Definition statusesWithin (bound : nat) (events : list pageEvent) : Prop :=
  Forall (fun ev => match ev with
                    | received (Observer.snapshot status _)
                    | settled (inr status) =>
                        (List.length (Observer.history status) <= bound)%nat
                    | _ => True
                    end) events.

(** A text without line feed *)
Fixpoint singleLine (s : string) : bool :=
  match s with
  | EmptyString => true
  | String c rest => (negb (Ascii.eqb c Logger.lineFeed) && singleLine rest)%bool
  end.

(** The audit file after appending the events in order, from no file *)
Definition written {A : Type} (stringify : A -> string) (events : list A)
  : option string :=
  fold_left (Logger.appendEvent stringify) events None.

(** A line-based rendering of the kind of an audit record and its reader *)
Definition kindName (k : Server.kind) : string :=
  match k with
  | Server.INTERNET_DOWN => "INTERNET_DOWN"
  | Server.INTERNET_RESTORED => "INTERNET_RESTORED"
  end.

Definition kindOfName (s : string) : option Server.kind :=
  if String.eqb s "INTERNET_DOWN" then Some Server.INTERNET_DOWN
  else if String.eqb s "INTERNET_RESTORED" then Some Server.INTERNET_RESTORED
  else None.

(** The messages pushed to the observers among the effects, in order *)
Fixpoint broadcastsOf (es : list Server.effect) : list Server.message :=
  match es with
  | [] => []
  | Server.broadcast msg :: rest => msg :: broadcastsOf rest
  | Server.appendEvent _ :: rest => broadcastsOf rest
  end.

End Signals.

(** * Properties *)

Import JS Monitor Scenario.

(** ** Numbers and letters of the payloads *)

Section Payloads.

(** [Number] on text: fractions, exponents, radix prefixes, white space *)
Lemma numbers_read :
  stringToNumber "99.9" = Other (Frac 3514918771674317 45) /\
  stringToNumber "1.5" = Other (Frac 3 1) /\
  stringToNumber " 1e2 " = Whole (Num 100) /\
  stringToNumber "0x64" = Whole (Num 100) /\
  stringToNumber "-.5" = Other (Frac (-1) 1) /\
  stringToNumber "" = Whole (Num 0) /\
  stringToNumber "12px" = Whole NaN /\
  stringToNumber "-0x10" = Whole NaN /\
  stringToNumber "1e400" = Other (Infinity false) /\
  stringToNumber "1e-400" = Whole (Num 0) /\
  stringToNumber "9007199254740993" = Whole (Num 9007199254740992).
Proof. repeat split; vm_compute; reflexivity. Qed.

(** [String] on numbers: the shortest decimal that reads back *)
Lemma numbers_written :
  toString (VReal (Frac 3 1)) = "1.5" /\
  toString (VReal (Frac 3602879701896397 55)) = "0.1" /\
  toString (VReal (Frac 3514918771674317 45)) = "99.9" /\
  toString (VReal (Frac (-1) 20)) = "-9.5367431640625e-7" /\
  toString (VNum (Num 42)) = "42" /\
  toString (VNum (Num 123456789012345683968)) = "123456789012345680000" /\
  toString (VNum (Num (10 ^ 21))) = "1e+21" /\
  toString (VReal (Infinity true)) = "-Infinity" /\
  toString (VArr [VReal (Frac 1 1); VNull; VStr "a"]) = "0.5,,a".
Proof. repeat split; vm_compute; reflexivity. Qed.

(** Case mapping: the letters outside ASCII that become ASCII letters *)
Lemma letters_mapped :
  toUpperCase "usg-pro-4" = "USG-PRO-4" /\
  toUpperCase "uſg" = "USG" /\
  toUpperCase "straße" = "STRASSE" /\
  toLowerCase "GateWay" = "gateway" /\
  toLowerCase (text [0x212A; 0x42]%N) = "kb" /\
  foldCase "HTTPS://" = "https://" /\
  foldCase "ſ" = "ſ".
Proof. repeat split; vm_compute; reflexivity. Qed.

(** An uptime given as a fraction, or as text, resolves the listing. *)
Lemma fractional_uptime_resolves :
  Unifi.up (Unifi.readWanStatusFromGroups
              (VArr [VObj [("id", VStr "WAN"); ("uptime", VStr "99.9")]]))
  = Some true /\
  Unifi.up (Unifi.readWanStatusFromGroups
              (VArr [VObj [("id", VStr "WAN");
                           ("uptime", VReal (Frac 3514918771674317 45))]]))
  = Some true /\
  Unifi.up (Unifi.readWanStatusFromGroups
              (VArr [VObj [("id", VStr "WAN"); ("uptime", VStr "n/a")]]))
  = None /\
  get (Unifi.primary (Unifi.readWanStatusFromGroups
                        (VArr match groupsOf groupsFractional with
                              | VArr gs => gs
                              | _ => []
                              end))) "id"
  = VStr "LTE".
Proof. repeat split; vm_compute; reflexivity. Qed.

End Payloads.

(** ** The WAN verdict of a cycle *)

Section Reconcile.

Lemma explicit_is_deviceVerdict (c : cycle) (b : bool) :
  explicitLinkUp c = Some b -> deviceVerdict c = Some b.
Proof.
  unfold explicitLinkUp, deviceVerdict, Unifi.readWanUp.
  destruct (truthy (Unifi.pickGateway (devicesOf c))); [|discriminate].
  cbn [negb].
  destruct (Unifi.firstBoolean (Unifi.directFields (Unifi.pickGateway (devicesOf c))));
    [intros H; exact H|].
  intros ->. reflexivity.
Qed.

(** What [observe] puts in [wanUp], by cases on the listing *)
Lemma wanUp_observe (c : cycle) :
  wanUp (observe c) =
  match listingVerdict c with
  | Some b => Some b
  | None => deviceVerdict c
  end.
Proof.
  unfold observe, listingVerdict, deviceVerdict, devicesOf, reconcile.
  destruct (wanGroupsQuery c) as [resp|]; [|reflexivity].
  destruct (groupsOf resp); reflexivity.
Qed.

Lemma probeResult_observe (c : cycle) : probeResult (observe c) = probed c.
Proof.
  unfold observe. destruct (reconcile _ _) as [[w g] gs]. reflexivity.
Qed.

Lemma unifiError_observe (c : cycle) :
  unifiError (observe c) =
  match devicesQuery c with inl e => Some e | inr _ => None end.
Proof.
  unfold observe. destruct (reconcile _ _) as [[w g] gs]. reflexivity.
Qed.

End Reconcile.

(** C1, as stated, fails: the gateway of [cycleDownVersusListing] carries
    [uplink.up = false], the listing resolves to up, and the verdict of the
    cycle is not [false]. *)
Lemma explicit_down_loses_to_listing :
  explicitLinkUp cycleDownVersusListing = Some false /\
  listingVerdict cycleDownVersusListing = Some true /\
  wanUp (observe cycleDownVersusListing) <> Some false.
Proof.
  repeat split; try reflexivity. vm_compute. discriminate.
Qed.

(** C1, amended: when the gateway exposes an explicit link-up field equal to
    false, the verdict of the cycle is true if the WAN groups listing
    resolves to up (the listing is consulted last and overrides the device),
    and false if the listing is unavailable or resolves nothing. *)
Theorem listing_overrides_explicit_field (c : cycle) :
  explicitLinkUp c = Some false ->
  (listingVerdict c = Some true -> wanUp (observe c) = Some true) /\
  (listingVerdict c = None -> wanUp (observe c) = Some false).
Proof.
  intros Hdev. rewrite wanUp_observe. split; intros Hl; rewrite Hl.
  - reflexivity.
  - now apply explicit_is_deviceVerdict.
Qed.

Lemma listing_overrides_explicit_field_witness :
  wanUp (observe cycleDownVersusListing) = Some true /\
  wanUp (observe cycleLinkDown) = Some false /\
  wanUp (observe cycleUplinksVersusListing) = Some true.
Proof.
  split; [|split].
  - apply (proj1 (listing_overrides_explicit_field cycleDownVersusListing
                    eq_refl)).
    reflexivity.
  - apply (proj2 (listing_overrides_explicit_field cycleLinkDown eq_refl)).
    reflexivity.
  - assert (Hdown : explicitLinkUp cycleUplinksVersusListing = Some false)
      by (vm_compute; reflexivity).
    apply (proj1 (listing_overrides_explicit_field cycleUplinksVersusListing
                    Hdown)).
    vm_compute. reflexivity.
Defined.

(** ** The hysteresis rule of [Monitor.tick] *)

Section Hysteresis.

Context {E : Type}.
Variable onChange : string -> healthState -> healthState -> entry -> list E.

Local Open Scope Z_scope.

Lemma healthState_eqb_eq (a b : healthState) :
  healthState_eqb a b = true <-> a = b.
Proof. destruct a, b; cbn; split; congruence. Qed.

Lemma run_cons (m : monitor) (c : cycle) (cs : list cycle) :
  run onChange m (c :: cs) =
  (final (run onChange (final (tick onChange m c)) cs),
   outcomesOf (tick onChange m c)
     :: outcomesOf (run onChange (final (tick onChange m c)) cs),
   (effectsOf (tick onChange m c)
      ++ effectsOf (run onChange (final (tick onChange m c)) cs))%list).
Proof.
  cbn [run]. destruct (tick onChange m c) as [[m1 o] es].
  unfold final, outcomesOf, effectsOf. cbn [fst snd].
  destruct (run onChange m1 cs) as [[m2 os] es']. reflexivity.
Qed.

Lemma run_app (m : monitor) (cs ds : list cycle) :
  final (run onChange m (cs ++ ds)) =
  final (run onChange (final (run onChange m cs)) ds).
Proof.
  revert m. induction cs as [|c cs IH]; intros m.
  - reflexivity.
  - cbn [app]. rewrite !run_cons. unfold final at 1 3. cbn [fst].
    apply IH.
Qed.

Lemma next_is_state (m : monitor) (b : base) :
  next (outcomesOf (step onChange m b)) = state (final (step onChange m b)).
Proof.
  unfold step.
  destruct (wanUp b) as [[|]|]; try reflexivity;
    destruct (ok (probeResult b)); cbn [negb];
    repeat match goal with
           | |- context [if ?x then _ else _] => destruct x
           end; reflexivity.
Qed.

Lemma statesOf_cons (m : monitor) (c : cycle) (cs : list cycle) :
  statesOf onChange m (c :: cs) =
  state (final (tick onChange m c))
    :: statesOf onChange (final (tick onChange m c)) cs.
Proof.
  unfold statesOf. rewrite run_cons. unfold outcomesOf at 1. cbn [fst snd map].
  unfold tick. now rewrite next_is_state.
Qed.

(** The configuration of a monitor never changes. *)
Lemma step_config (m : monitor) (b : base) :
  let m' := final (step onChange m b) in
  degradedAfterFails m' = degradedAfterFails m /\
  downAfterFails m' = downAfterFails m /\
  okAfterSucc m' = okAfterSucc m /\
  maxHistory m' = maxHistory m.
Proof.
  unfold step.
  destruct (wanUp b) as [[|]|]; try (cbn; tauto);
    destruct (ok (probeResult b)); cbn [negb];
    repeat match goal with
           | |- context [if ?x then _ else _] => destruct x
           end; cbn; tauto.
Qed.

(** Rule 1: a link reported down *)
Lemma step_wan_down (m : monitor) (b : base) :
  wanUp b = Some false ->
  let m' := final (step onChange m b) in
  state m' = DOWN /\ fail m' = 0 /\ succ m' = 0.
Proof.
  intros H. unfold step. rewrite H. cbn. tauto.
Qed.

(** Rule 2, probe failure *)
Lemma step_probe_failure (m : monitor) (b : base) :
  wanUp b <> Some false ->
  ok (probeResult b) = false ->
  let m' := final (step onChange m b) in
  state m' =
    (if downAfterFails m <=? fail m + 1 then DOWN
     else if degradedAfterFails m <=? fail m + 1 then DEGRADED
     else state m) /\
  fail m' = fail m + 1 /\ succ m' = 0.
Proof.
  intros Hwan Hprobe. unfold step. rewrite Hprobe. cbn [negb].
  destruct (wanUp b) as [[|]|]; try congruence;
    cbn [setCounters fail downAfterFails degradedAfterFails];
    destruct (downAfterFails m <=? fail m + 1);
    destruct (degradedAfterFails m <=? fail m + 1); cbn; tauto.
Qed.

(** Rule 2, probe success *)
Lemma step_probe_success (m : monitor) (b : base) :
  wanUp b <> Some false ->
  ok (probeResult b) = true ->
  let m' := final (step onChange m b) in
  state m' =
    (if healthState_eqb (state m) UNKNOWN || (okAfterSucc m <=? succ m + 1)
     then OK else state m) /\
  fail m' = 0 /\ succ m' = succ m + 1.
Proof.
  intros Hwan Hprobe. unfold step. rewrite Hprobe. cbn [negb].
  destruct (wanUp b) as [[|]|]; try congruence;
    cbn [setCounters succ state okAfterSucc];
    destruct (healthState_eqb (state m) UNKNOWN || (okAfterSucc m <=? succ m + 1));
    cbn; tauto.
Qed.

End Hysteresis.

Section Failures.

Context {E : Type}.
Variable onChange : string -> healthState -> healthState -> entry -> list E.

Local Open Scope Z_scope.

(** A cycle with the link up and the probe failing, on any monitor *)
Lemma tick_probe_failure (m : monitor) (c : cycle) :
  wanUp (observe c) = Some true ->
  ok (probed c) = false ->
  let m' := final (tick onChange m c) in
  state m' =
    (if downAfterFails m <=? fail m + 1 then DOWN
     else if degradedAfterFails m <=? fail m + 1 then DEGRADED
     else state m) /\
  fail m' = fail m + 1 /\
  degradedAfterFails m' = degradedAfterFails m /\
  downAfterFails m' = downAfterFails m.
Proof.
  intros Hwan Hprobe. unfold tick.
  destruct (step_probe_failure onChange m (observe c)) as (Hs & Hf & _).
  - rewrite Hwan. discriminate.
  - now rewrite probeResult_observe.
  - destruct (step_config onChange m (observe c)) as (Hd & Hdown & _).
    cbv zeta in *. tauto.
Qed.

End Failures.

(** C2, as stated, fails: from the initial monitor (thresholds 2 and 4) the
    first of the consecutive probe failures leaves the state as it was, so
    the first three states are not three times DEGRADED. *)
Lemma three_failures_not_all_degraded :
  degradedAfterFails createDefault = 2%Z /\
  downAfterFails createDefault = 4%Z /\
  wanUp (observe cycleProbeFails) = Some true /\
  ok (probed cycleProbeFails) = false /\
  statesOf Server.onChange createDefault
    [cycleProbeFails; cycleProbeFails; cycleProbeFails; cycleProbeFails]
  = [UNKNOWN; DEGRADED; DEGRADED; DOWN] /\
  firstn 3 (statesOf Server.onChange createDefault
              [cycleProbeFails; cycleProbeFails; cycleProbeFails; cycleProbeFails])
  <> [DEGRADED; DEGRADED; DEGRADED].
Proof.
  repeat split; try reflexivity. vm_compute. discriminate.
Qed.

(** C2, amended: with degraded-threshold 2 and down-threshold 4, starting
    from any state with the consecutive-fail counter at zero, four
    consecutive cycles with probe failure and wanUp = true produce the
    states: the starting state unchanged, DEGRADED, DEGRADED, DOWN. *)
Theorem four_failures_from_zero {E : Type}
    (onChange : string -> healthState -> healthState -> entry -> list E)
    (m : monitor) (c1 c2 c3 c4 : cycle) :
  degradedAfterFails m = 2%Z ->
  downAfterFails m = 4%Z ->
  fail m = 0%Z ->
  Forall (fun c => wanUp (observe c) = Some true /\ ok (probed c) = false)
         [c1; c2; c3; c4] ->
  statesOf onChange m [c1; c2; c3; c4] = [state m; DEGRADED; DEGRADED; DOWN].
Proof.
  intros Hdeg Hdown Hfail Hall.
  inversion_clear Hall as [|? ? [W1 P1] Hall2].
  inversion_clear Hall2 as [|? ? [W2 P2] Hall3].
  inversion_clear Hall3 as [|? ? [W3 P3] Hall4].
  inversion_clear Hall4 as [|? ? [W4 P4] _].
  rewrite !statesOf_cons.
  destruct (tick_probe_failure onChange m c1 W1 P1) as (S1 & F1 & D1 & N1).
  set (m1 := final (tick onChange m c1)) in *.
  destruct (tick_probe_failure onChange m1 c2 W2 P2) as (S2 & F2 & D2 & N2).
  set (m2 := final (tick onChange m1 c2)) in *.
  destruct (tick_probe_failure onChange m2 c3 W3 P3) as (S3 & F3 & D3 & N3).
  set (m3 := final (tick onChange m2 c3)) in *.
  destruct (tick_probe_failure onChange m3 c4 W4 P4) as (S4 & F4 & D4 & N4).
  set (m4 := final (tick onChange m3 c4)) in *.
  rewrite S1, S2, S3, S4.
  rewrite N3, N2, N1, D3, D2, D1, F3, F2, F1, Hfail, Hdeg, Hdown.
  reflexivity.
Qed.

Lemma four_failures_from_zero_witness :
  statesOf Server.onChange createDefault
    [cycleProbeFails; cycleProbeFails; cycleProbeFails; cycleProbeFails]
  = [UNKNOWN; DEGRADED; DEGRADED; DOWN].
Proof.
  apply (four_failures_from_zero Server.onChange createDefault
           cycleProbeFails cycleProbeFails cycleProbeFails cycleProbeFails);
    try reflexivity.
  repeat constructor.
Defined.

(** C3: whatever came before, a cycle whose WAN verdict is [false] ends in
    DOWN with both counters at zero, whatever the probe says; the first
    state machine ([HealthStateMachine.update]) does the same. *)
Theorem wan_down_forces_down {E : Type}
    (onChange : string -> healthState -> healthState -> entry -> list E)
    (m : monitor) (cs : list cycle) (c : cycle)
    (ENV : Legacy.env) (sm : Legacy.HealthStateMachine) (probeOk : bool) :
  wanUp (observe c) = Some false ->
  (let m' := final (run onChange m (cs ++ [c])) in
   state m' = DOWN /\ fail m' = 0%Z /\ succ m' = 0%Z) /\
  (let sm' := Legacy.update ENV sm (Some false) probeOk in
   Legacy.state sm' = DOWN /\ Legacy.failCount sm' = 0%Z
   /\ Legacy.successCount sm' = 0%Z).
Proof.
  intros Hwan. split.
  - cbv zeta. rewrite run_app.
    set (m0 := final (run onChange m cs)).
    rewrite run_cons. unfold final at 1 3 5. cbn [fst run].
    apply (step_wan_down onChange m0 (observe c) Hwan).
  - cbn. tauto.
Qed.

Lemma wan_down_forces_down_witness :
  state (final (run Server.onChange createDefault
                  ([cycleHealthy; cycleProbeFails] ++ [cycleLinkDown]))) = DOWN.
Proof.
  apply (wan_down_forces_down Server.onChange createDefault
           [cycleHealthy; cycleProbeFails] cycleLinkDown
           sampleEnv
           Legacy.newMachine true).
  reflexivity.
Defined.

(** ** The re-login of [UniFiClient.request] *)

Section Relogin.

Import Legacy.

Lemma attempts_app (m u : string) (a b : list httpRequest) :
  attempts m u (a ++ b) = (attempts m u a + attempts m u b)%nat.
Proof.
  unfold attempts. now rewrite filter_app, length_app.
Qed.

Lemma request_succ (ENV : env) (net : network) (d : nat)
    (path method : string) (body : value) :
  request ENV net (S d) path method body =
  (ensureLogin ENV net ;;;
   c <- getSelf ;;
   res <- fetch net {| Legacy.method := method;
                       url := match baseUrlEffective c with
                              | Some b => b
                              | None => "null"
                              end ++ path;
                       cookieHeader := Some (cookie c);
                       Legacy.body := if truthy body then Some body else None |} ;;
   if unauthorized res then
     setCookie "" ;;; ensureLogin ENV net ;;; request ENV net d path method body
   else if negb (resOk res) then
     throw ("HTTP " ++ showZ (status res) ++ " em " ++ path ++ ": " ++ text res)
   else match json res with
        | Some v => ret v
        | None => throw "Unexpected token in JSON"
        end).
Proof. reflexivity. Qed.

(** One refused read: the client logs in again and calls itself. *)
Lemma refused_read_recurses (d n : nat) (s : list httpRequest) :
  request sampleEnv alwaysUnauthorized (S d) devicePath "GET" VUndefined
    {| self := loggedInClient; exchanges := n; sent := s |}
  = request sampleEnv alwaysUnauthorized d devicePath "GET" VUndefined
      {| self := loggedInClient; exchanges := S (S n);
         sent := ((s ++ [deviceRead]) ++ [loginPost])%list |}.
Proof.
  rewrite request_succ. cbv -[request app]. reflexivity.
Qed.

Lemma first_read_recurses (d : nat) :
  request sampleEnv alwaysUnauthorized (S d) devicePath "GET" VUndefined freshWorld
  = request sampleEnv alwaysUnauthorized d devicePath "GET" VUndefined
      {| self := loggedInClient; exchanges := 3;
         sent := [loginPost; deviceRead; loginPost] |}.
Proof.
  rewrite request_succ. cbv -[request]. reflexivity.
Qed.

Lemma refused_reads_pending (d : nat) :
  forall (n : nat) (s : list httpRequest),
    let r := request sampleEnv alwaysUnauthorized d devicePath "GET" VUndefined
               {| self := loggedInClient; exchanges := n; sent := s |} in
    fst r = pending /\
    deviceAttempts (snd r)
    = (attempts "GET" (controllerBase ++ devicePath) s + d)%nat.
Proof.
  induction d as [|d IH]; intros n s.
  - cbv zeta. cbn [request fst snd]. unfold deviceAttempts. cbn [sent].
    split; [reflexivity|now rewrite Nat.add_0_r].
  - cbv zeta. rewrite refused_read_recurses.
    destruct (IH (S (S n)) ((s ++ [deviceRead]) ++ [loginPost])%list) as [Hp Ha].
    split; [exact Hp|]. rewrite Ha, !attempts_app.
    change (attempts "GET" (controllerBase ++ devicePath) [deviceRead]) with 1%nat.
    change (attempts "GET" (controllerBase ++ devicePath) [loginPost]) with 0%nat.
    lia.
Qed.

(** An expired session is absorbed by one re-login: two attempts. *)
Example one_relogin_recovers :
  let r := request sampleEnv expiredSession 2 devicePath "GET" VUndefined
             freshWorld in
  fst r = returned (VObj [("data", VArr [])]) /\ deviceAttempts (snd r) = 2%nat.
Proof. split; reflexivity. Qed.

End Relogin.

(** C4, on the code: against a controller that accepts every login and
    answers the device read with 401 every time, [request] never returns.
    Whatever number of nested calls is allowed, the call is still pending
    after exactly that many attempts of the original read, so the attempts
    exceed two. *)
Theorem request_retries_without_bound (depth : nat) :
  let r := Legacy.request sampleEnv alwaysUnauthorized depth devicePath "GET"
             VUndefined freshWorld in
  fst r = Legacy.pending /\ deviceAttempts (snd r) = depth.
Proof.
  destruct depth as [|d].
  - split; reflexivity.
  - cbv zeta. rewrite first_read_recurses.
    destruct (refused_reads_pending d 3 [loginPost; deviceRead; loginPost])
      as [Hp Ha].
    split; [exact Hp|]. rewrite Ha. reflexivity.
Qed.

(** ** What a cycle records and tells *)

Section Recording.

Context {E : Type}.
Variable onChange : string -> healthState -> healthState -> entry -> list E.

Local Ltac by_cases_of_step b :=
  unfold step;
  destruct (wanUp b) as [[|]|]; try reflexivity;
  destruct (ok (probeResult b)); cbn [negb];
  repeat match goal with
         | |- context [if ?x then _ else _] => destruct x
         end;
  try reflexivity.

Lemma healthState_eqb_refl (s : healthState) : healthState_eqb s s = true.
Proof. now destruct s. Qed.

Lemma step_entry_base (m : monitor) (b : base) :
  entry_base (entryOf (outcomesOf (step onChange m b))) = b.
Proof. by_cases_of_step b. Qed.

Lemma step_prev (m : monitor) (b : base) :
  prev (outcomesOf (step onChange m b)) = state m.
Proof. by_cases_of_step b. Qed.

(** Every branch pushes exactly the entry it returns. *)
Lemma step_history (m : monitor) (b : base) :
  history (final (step onChange m b))
  = pushed (maxHistory m) (entryOf (outcomesOf (step onChange m b))) (history m).
Proof. by_cases_of_step b. Qed.

(** The subscriber is called on a change of state and only then. *)
Lemma step_effects (m : monitor) (b : base) :
  effectsOf (step onChange m b)
  = if healthState_eqb (state m) (state (final (step onChange m b)))
    then []
    else onChange (ts b) (state m) (state (final (step onChange m b)))
                  (entryOf (outcomesOf (step onChange m b))).
Proof.
  unfold step.
  destruct (wanUp b) as [[|]|];
    try destruct (ok (probeResult b)); cbn [negb];
    repeat match goal with
           | |- context [if (?x <=? ?y)%Z then _ else _] => destruct (x <=? y)%Z
           | |- context [if (?x || ?y)%bool then _ else _] =>
               destruct (x || y)%bool
           end;
    cbn; destruct (state m); reflexivity.
Qed.

(** State and counters depend on the verdict and on the probe only. *)
Lemma step_depends_on_signals (m : monitor) (b b' : base) :
  wanUp b = wanUp b' ->
  ok (probeResult b) = ok (probeResult b') ->
  let m1 := final (step onChange m b) in
  let m2 := final (step onChange m b') in
  state m1 = state m2 /\ fail m1 = fail m2 /\ succ m1 = succ m2.
Proof.
  intros Hw Hp. unfold step. rewrite <- Hw, <- Hp.
  destruct (wanUp b) as [[|]|]; try (cbn; tauto);
    destruct (ok (probeResult b)); cbn [negb];
    repeat match goal with
           | |- context [if ?x then _ else _] => destruct x
           end; cbn; tauto.
Qed.

Lemma deviceVerdict_failed_query (c : cycle) (err : string) :
  devicesQuery c = inl err -> deviceVerdict c = None.
Proof.
  intros H. unfold deviceVerdict, devicesOf. now rewrite H.
Qed.

Lemma listingVerdict_withoutDevices (c : cycle) :
  listingVerdict (withoutDevices c) = listingVerdict c.
Proof. reflexivity. Qed.

End Recording.

(** ** A failed controller query *)

(** C5, as stated, fails on [Monitor.tick]: with the monitor in state OK, a
    cycle whose device query fails and whose probe answers leaves the state
    OK and tells nobody; and when the WAN groups listing still answers, the
    verdict of the cycle is the listing's, not unknown. *)
Lemma controller_failure_does_not_force_unknown :
  state healthyMonitor = OK /\
  state (final (tick Server.onChange healthyMonitor
                  (cycleControllerFails probeUp None))) = OK /\
  effectsOf (tick Server.onChange healthyMonitor
               (cycleControllerFails probeUp None)) = [] /\
  wanUp (observe (cycleControllerFails probeUp (Some groupsDisabled)))
  = Some false.
Proof. repeat split; reflexivity. Qed.

(** C5, amended: when the controller device query fails, [Monitor.tick] is
    not aborted: the probe result of the cycle is the one recorded, the
    device fields give no verdict so [wanUp] is what the WAN groups listing
    resolves (unknown when it resolves nothing), the error string is
    attached to the one history entry pushed, and state and counters are
    those the hysteresis rule gives for an empty device inventory (the state
    is not forced to UNKNOWN).  In the loop of unifi-monitor.mjs a failed
    controller query skips the state machine; if the state differs from
    UNKNOWN it is set to UNKNOWN and one alert is posted, and a further
    failure posts none. *)
Theorem controller_failure_degrades_gracefully {E : Type}
    (onChange : string -> healthState -> healthState -> entry -> list E)
    (m : monitor) (c : cycle) (err : string)
    (ENV : Legacy.env) (effective : option Legacy.dialect) (l : Legacy.loop)
    (now later err' : string) (probe probe' : Legacy.httpProbeResult) :
  devicesQuery c = inl err ->
  (let r := tick onChange m c in
   let r0 := tick onChange m (withoutDevices c) in
   let e := entryOf (outcomesOf r) in
   probeResult (entry_base e) = probed c /\
   wanUp (entry_base e) = listingVerdict c /\
   unifiError (entry_base e) = Some err /\
   history (final r) = pushed (maxHistory m) e (history m) /\
   state (final r) = state (final r0) /\
   fail (final r) = fail (final r0) /\
   succ (final r) = succ (final r0)) /\
  (let r := Legacy.iteration ENV effective l now (inl err) probe in
   Legacy.state (Legacy.sm (fst r)) = UNKNOWN /\
   Legacy.failCount (Legacy.sm (fst r)) = Legacy.failCount (Legacy.sm l) /\
   Legacy.successCount (Legacy.sm (fst r)) = Legacy.successCount (Legacy.sm l) /\
   snd r = (if healthState_eqb (Legacy.state (Legacy.sm l)) UNKNOWN then []
            else [Legacy.unknownAlert ("⚠️ Monitor UNKNOWN: " ++ err) now]) /\
   snd (Legacy.iteration ENV effective (fst r) later (inl err') probe') = []).
Proof.
  intros Hq. split.
  - cbv zeta. unfold tick.
    rewrite step_entry_base, step_history.
    rewrite probeResult_observe, unifiError_observe, Hq, wanUp_observe.
    rewrite (deviceVerdict_failed_query c err Hq).
    repeat split.
    + now destruct (listingVerdict c).
    + apply step_depends_on_signals.
      * rewrite !wanUp_observe, listingVerdict_withoutDevices.
        now rewrite (deviceVerdict_failed_query c err Hq).
      * now rewrite !probeResult_observe.
    + apply step_depends_on_signals.
      * rewrite !wanUp_observe, listingVerdict_withoutDevices.
        now rewrite (deviceVerdict_failed_query c err Hq).
      * now rewrite !probeResult_observe.
    + apply step_depends_on_signals.
      * rewrite !wanUp_observe, listingVerdict_withoutDevices.
        now rewrite (deviceVerdict_failed_query c err Hq).
      * now rewrite !probeResult_observe.
  - cbv zeta. unfold Legacy.iteration.
    destruct l as [[s f k] ln]. cbn [Legacy.sm Legacy.state].
    destruct s; cbn; repeat split; reflexivity.
Qed.

Lemma controller_failure_degrades_gracefully_witness :
  unifiError
    (entry_base
       (entryOf (outcomesOf (tick Server.onChange healthyMonitor
                               (cycleControllerFails probeDown None)))))
  = Some "UniFi GET /devices -> HTTP 401 unauthorized".
Proof.
  apply (controller_failure_degrades_gracefully Server.onChange healthyMonitor
           (cycleControllerFails probeDown None)
           "UniFi GET /devices -> HTTP 401 unauthorized"
           sampleEnv None Legacy.start "t0" "t1" "timeout"
           {| Legacy.ok := true; Legacy.probeUrl := "https://www.google.com/generate_204" |}
           {| Legacy.ok := true; Legacy.probeUrl := "https://www.google.com/generate_204" |}).
  reflexivity.
Defined.

(** ** The history buffer *)

Section History.

Context {E : Type}.
Variable onChange : string -> healthState -> healthState -> entry -> list E.

Lemma pushed_firstn (capacity : nat) (e : entry) (h : list entry) :
  pushed capacity e h = firstn capacity (e :: h).
Proof.
  unfold pushed. destruct (Nat.ltb_spec capacity (List.length (e :: h))) as [Hlt|Hge].
  - reflexivity.
  - symmetry. now apply firstn_all2.
Qed.

Lemma pushed_length (capacity : nat) (e : entry) (h : list entry) :
  List.length (pushed capacity e h) <= capacity.
Proof.
  rewrite pushed_firstn. apply firstn_le_length.
Qed.

Lemma firstn_app_firstn {A : Type} (n : nat) (a b : list A) :
  firstn n (a ++ firstn n b) = firstn n (a ++ b).
Proof.
  rewrite !firstn_app, firstn_firstn. do 2 f_equal. lia.
Qed.

Lemma ts_observe (c : cycle) : ts (observe c) = clock c.
Proof.
  unfold observe. destruct (reconcile _ _) as [[w g] gs]. reflexivity.
Qed.

Lemma entriesOf_cons (m : monitor) (c : cycle) (cs : list cycle) :
  entriesOf onChange m (c :: cs)
  = entryOf (outcomesOf (tick onChange m c))
      :: entriesOf onChange (final (tick onChange m c)) cs.
Proof.
  unfold entriesOf. rewrite run_cons. reflexivity.
Qed.

Lemma entriesOf_length (cs : list cycle) :
  forall m, List.length (entriesOf onChange m cs) = List.length cs.
Proof.
  induction cs as [|c cs IH]; intros m.
  - reflexivity.
  - rewrite entriesOf_cons. cbn [List.length]. now rewrite IH.
Qed.

Lemma entriesOf_clocks (cs : list cycle) :
  forall m,
    map (fun e => ts (entry_base e)) (entriesOf onChange m cs) = map clock cs.
Proof.
  induction cs as [|c cs IH]; intros m.
  - reflexivity.
  - rewrite entriesOf_cons. cbn [map]. rewrite IH. f_equal.
    unfold tick. now rewrite step_entry_base, ts_observe.
Qed.

Lemma run_maxHistory (cs : list cycle) :
  forall m, maxHistory (final (run onChange m cs)) = maxHistory m.
Proof.
  induction cs as [|c cs IH]; intros m.
  - reflexivity.
  - rewrite run_cons. unfold final at 1. cbn [fst]. rewrite IH.
    unfold tick. apply (step_config onChange m (observe c)).
Qed.

(** The buffer holds the newest entries, newest first. *)
Lemma run_history (cs : list cycle) :
  forall m,
    history (final (run onChange m cs))
    = firstn (maxHistory m) (rev (entriesOf onChange m cs) ++ history m)
      \/ cs = [].
Proof.
  induction cs as [|c cs IH]; intros m.
  - now right.
  - left. rewrite run_cons, entriesOf_cons. unfold final at 1. cbn [fst].
    set (m1 := final (tick onChange m c)).
    assert (Hcap : maxHistory m1 = maxHistory m)
      by apply (step_config onChange m (observe c)).
    assert (Hh : history m1
                 = firstn (maxHistory m)
                     (entryOf (outcomesOf (tick onChange m c)) :: history m)).
    { unfold m1, tick. now rewrite step_history, pushed_firstn. }
    cbn [rev]. rewrite <- app_assoc. cbn [app].
    destruct (IH m1) as [Hrun | ->].
    + fold (final (run onChange m1 cs)). rewrite Hrun, Hcap, Hh.
      apply firstn_app_firstn.
    + cbn. exact Hh.
Qed.

End History.

(** C6: from a new monitor, after any sequence of cycles the history holds
    at most [maxHistory] entries, namely the newest ones, newest first; after
    capacity + 1 cycles (at distinct times) it is the entries of all cycles
    but the first, newest first, and the first entry is gone. *)
Theorem history_bounded_newest_first {E : Type}
    (onChange : string -> healthState -> healthState -> entry -> list E)
    (degraded down okAfter : Z) (capacity : nat) (cs : list cycle) :
  let m0 := create degraded down okAfter capacity in
  let h := history (final (run onChange m0 cs)) in
  let es := entriesOf onChange m0 cs in
  List.length h <= capacity /\
  h = firstn capacity (rev es) /\
  (List.length cs = S capacity ->
   NoDup (map clock cs) ->
   h = rev (tl es) /\
   forall oldest, hd_error es = Some oldest -> ~ In oldest h).
Proof.
  cbv zeta.
  set (m0 := create degraded down okAfter capacity).
  assert (Hh : history (final (run onChange m0 cs))
               = firstn capacity (rev (entriesOf onChange m0 cs))).
  { destruct (run_history onChange cs m0) as [H | ->].
    - rewrite H. cbn [m0 create maxHistory history]. now rewrite app_nil_r.
    - cbn. now rewrite firstn_nil. }
  split; [rewrite Hh; apply firstn_le_length|].
  split; [exact Hh|].
  intros Hlen Hclocks. rewrite Hh.
  pose proof (entriesOf_length onChange cs m0) as Hes.
  pose proof (entriesOf_clocks onChange cs m0) as Hts.
  assert (Hnodup : NoDup (entriesOf onChange m0 cs)).
  { apply (NoDup_map_inv (fun e => ts (entry_base e))). now rewrite Hts. }
  destruct (entriesOf onChange m0 cs) as [|e es]; [cbn in Hes; lia|].
  cbn [tl rev hd_error].
  assert (Hcap : List.length (rev es) = capacity).
  { rewrite length_rev. cbn in Hes. lia. }
  assert (Hcut : firstn capacity (rev es ++ [e]) = rev es).
  { rewrite <- Hcap. rewrite firstn_app, firstn_all, Nat.sub_diag. cbn.
    apply app_nil_r. }
  rewrite Hcut. split; [reflexivity|].
  intros oldest [= <-] Hin. apply in_rev in Hin.
  now inversion Hnodup.
Qed.

Lemma history_bounded_newest_first_witness :
  history (final (run Server.onChange (create 2 4 2 2)
                    [cycleHealthy; cycleProbeFails; cycleLinkDown]))
  = rev (tl (entriesOf Server.onChange (create 2 4 2 2)
               [cycleHealthy; cycleProbeFails; cycleLinkDown])).
Proof.
  apply (history_bounded_newest_first Server.onChange 2 4 2 2
           [cycleHealthy; cycleProbeFails; cycleLinkDown]).
  - reflexivity.
  - repeat constructor; cbn; intuition discriminate.
Defined.

(** ** Audit records *)

(** C7: the subscriber of state changes appends [INTERNET_DOWN] exactly when
    the new state is DOWN and [INTERNET_RESTORED] exactly when the change is
    from DOWN to OK, and nothing otherwise; over a cycle, an audit record is
    written if and only if the state changed and either became DOWN or went
    from DOWN to OK. *)
Theorem audit_only_down_and_restored
    (now : string) (before after : healthState) (e : entry)
    (m : monitor) (c : cycle) :
  (before <> after ->
   let log := Server.auditLog (Server.onChange now before after e) in
   (log <> [] <-> after = DOWN \/ (before = DOWN /\ after = OK)) /\
   (after = DOWN -> map Server.ev_kind log = [Server.INTERNET_DOWN]) /\
   (before = DOWN /\ after = OK ->
    map Server.ev_kind log = [Server.INTERNET_RESTORED])) /\
  (let r := tick Server.onChange m c in
   let log := Server.auditLog (effectsOf r) in
   (log <> [] <->
    state m <> state (final r) /\
    (state (final r) = DOWN \/ (state m = DOWN /\ state (final r) = OK))) /\
   (state m <> state (final r) -> state (final r) = DOWN ->
    map Server.ev_kind log = [Server.INTERNET_DOWN]) /\
   (state m = DOWN -> state (final r) = OK ->
    map Server.ev_kind log = [Server.INTERNET_RESTORED])).
Proof.
  split.
  - intros Hchange. cbv zeta.
    destruct before, after; cbn; repeat split; intros;
      try discriminate; try congruence; try tauto;
      try (left; reflexivity); try (right; split; reflexivity);
      intuition congruence.
  - cbv zeta. unfold tick. rewrite step_effects.
    generalize (entryOf (outcomesOf (step Server.onChange m (observe c)))).
    generalize (state (final (step Server.onChange m (observe c)))).
    generalize (ts (observe c)). generalize (state m).
    clear before after e. intros before t after e.
    destruct before, after; cbn; repeat split; intros;
      try discriminate; try congruence; try tauto;
      intuition congruence.
Qed.

Lemma audit_only_down_and_restored_witness :
  map Server.ev_kind
    (Server.auditLog
       (effectsOf (tick Server.onChange healthyMonitor cycleLinkDown)))
  = [Server.INTERNET_DOWN].
Proof.
  apply (audit_only_down_and_restored "t" OK DOWN
           (entryOf (outcomesOf (tick Server.onChange healthyMonitor cycleLinkDown)))
           healthyMonitor cycleLinkDown).
  - cbn. discriminate.
  - reflexivity.
Defined.

(** ** The observer's merge *)

Section Merge.

Import Observer.

Lemma key_found_at_head (e : HistoryItem) (rest : list HistoryItem) :
  existsb (fun h => String.eqb (key h) (key e)) (e :: rest) = true.
Proof.
  cbn [existsb]. now rewrite String.eqb_refl.
Qed.

Lemma mergeTick_history (e : HistoryItem) (s : option healthState)
    (l : option string) (prev : option StatusPayload) :
  history (mergeTick e s l prev)
  = let prevHist := match prev with Some p => history p | None => [] end in
    if existsb (fun h => String.eqb (key h) (key e)) prevHist
    then prevHist
    else e :: firstn (Nat.pred localCap) prevHist.
Proof. reflexivity. Qed.

Lemma mergeTick_again (e : HistoryItem) (s : option healthState)
    (l : option string) (prev : option StatusPayload) :
  mergeTick e s l (Some (mergeTick e s l prev)) = mergeTick e s l prev.
Proof.
  unfold mergeTick at 1. rewrite mergeTick_history. cbv zeta.
  set (prevHist := match prev with Some p => history p | None => [] end).
  unfold mergeTick. fold prevHist.
  destruct (existsb (fun h => String.eqb (key h) (key e)) prevHist) eqn:Hhas.
  - rewrite Hhas. destruct l; reflexivity.
  - rewrite key_found_at_head. destruct l; reflexivity.
Qed.

End Merge.

(** C8: applying the same tick message a second time right after the first
    leaves the local history (and the whole local view) as the first
    application left it. *)
Theorem merge_is_idempotent (e : Observer.HistoryItem)
    (s : option healthState) (l : option string)
    (data : option Observer.StatusPayload) :
  let once := Observer.onmessage (Observer.tick e s l) data in
  let twice := Observer.onmessage (Observer.tick e s l) (fst once) in
  twice = once /\
  option_map Observer.history (fst twice) = option_map Observer.history (fst once).
Proof.
  cbv zeta. cbn [Observer.onmessage fst]. rewrite mergeTick_again.
  split; reflexivity.
Qed.

(** C10: when the key of the incoming entry is the key of an entry anywhere
    in the local history, the history is left as it is; state and label are
    taken from the message (the entry's state and the previous label when
    the message carries none). *)
Theorem duplicate_anywhere_is_dropped (e : Observer.HistoryItem)
    (s : option healthState) (l : option string)
    (data : Observer.StatusPayload) :
  (exists h, In h (Observer.history data) /\ Observer.key h = Observer.key e) ->
  let after := Observer.mergeTick e s l (Some data) in
  Observer.history after = Observer.history data /\
  Observer.state after
  = match s with Some s' => s' | None => Observer.item_state e end /\
  Observer.label after
  = match l with Some l' => l' | None => Observer.label data end.
Proof.
  intros (h & Hin & Hkey). cbv zeta. rewrite mergeTick_history. cbv zeta.
  assert (Hhas : existsb (fun x => String.eqb (Observer.key x) (Observer.key e))
                         (Observer.history data) = true).
  { apply existsb_exists. exists h. split; [exact Hin|].
    now apply String.eqb_eq. }
  rewrite Hhas. repeat split.
Qed.

Lemma duplicate_anywhere_is_dropped_witness :
  Observer.history (Observer.mergeTick replayed (Some DEGRADED) None (Some localView))
  = Observer.history localView /\
  Observer.state (Observer.mergeTick replayed (Some DEGRADED) None (Some localView))
  = DEGRADED /\
  hd_error (Observer.history localView) <> Some replayed.
Proof.
  pose proof (duplicate_anywhere_is_dropped replayed (Some DEGRADED) None localView)
    as H.
  destruct H as (Hh & Hs & _).
  - exists replayed. split; [right; left; reflexivity | reflexivity].
  - split; [exact Hh | split; [exact Hs | vm_compute; discriminate]].
Defined.

(** ** Reconnection backoff *)

Section Backoff.

Import Observer.
Local Open Scope N_scope.

Lemma delay_capped (wsRetry : N) : snd (scheduleReconnect wsRetry) <= maxDelay.
Proof. cbn [scheduleReconnect snd]. apply N.le_min_l. Qed.

Lemma attempt_capped (wsRetry : N) : fst (scheduleReconnect wsRetry) <= maxAttempt.
Proof. cbn [scheduleReconnect fst]. apply N.le_min_l. Qed.

(** The delay after one more failure is not shorter. *)
Lemma delay_le_next (wsRetry : N) :
  snd (scheduleReconnect wsRetry)
  <= snd (scheduleReconnect (fst (scheduleReconnect wsRetry))).
Proof.
  unfold scheduleReconnect. cbn [fst snd].
  set (a := N.min maxAttempt (wsRetry + 1)).
  assert (Ha : a <= N.min maxAttempt (a + 1)).
  { unfold a, maxAttempt. lia. }
  apply N.min_le_compat_l, N.mul_le_mono_l, N.pow_le_mono_r; [discriminate|exact Ha].
Qed.

Lemma reconnects_failed (wsRetry : N) (rs : list attemptResult) :
  reconnects wsRetry (failed :: rs)
  = (fst (reconnects (fst (scheduleReconnect wsRetry)) rs),
     snd (scheduleReconnect wsRetry)
       :: snd (reconnects (fst (scheduleReconnect wsRetry)) rs)).
Proof.
  cbn [reconnects]. destruct (scheduleReconnect wsRetry) as [r1 d].
  cbn [fst snd]. now destruct (reconnects r1 rs).
Qed.

Lemma failures_sorted (n : nat) :
  forall wsRetry, Sorted N.le (snd (reconnects wsRetry (repeat failed n))).
Proof.
  induction n as [|n IH]; intros wsRetry.
  - constructor.
  - cbn [repeat]. rewrite reconnects_failed. cbn [snd].
    constructor; [apply IH|].
    destruct n as [|n]; [constructor|].
    cbn [repeat]. rewrite reconnects_failed. cbn [snd].
    constructor. apply delay_le_next.
Qed.

Lemma failures_capped (n : nat) :
  forall wsRetry,
    Forall (fun d => d <= maxDelay) (snd (reconnects wsRetry (repeat failed n))).
Proof.
  induction n as [|n IH]; intros wsRetry.
  - constructor.
  - cbn [repeat]. rewrite reconnects_failed. cbn [snd].
    constructor; [apply delay_capped|apply IH].
Qed.

End Backoff.

(** C9, as stated, fails in its last part: after a successful connection the
    next failure is scheduled after 1000 ms, which is not the base delay of
    500 ms. *)
Lemma delay_after_success_is_not_base :
  Observer.baseDelay = 500%N /\
  Observer.reconnects 0 [Observer.failed; Observer.failed; Observer.opened;
                         Observer.failed]
  = (1%N, [1000%N; 2000%N; 1000%N]) /\
  snd (Observer.scheduleReconnect (Observer.onopen 2)) <> Observer.baseDelay.
Proof. repeat split. vm_compute. discriminate. Qed.

(** C9, amended: over any run of consecutive reconnection failures the
    delays never decrease and never exceed the cap; a successful connection
    resets the attempt counter to zero, so that the next failure is
    scheduled after the delay of a first failure, twice the base delay. *)
Theorem backoff_monotone_capped_reset (wsRetry : N) (n : nat) :
  let delays := snd (Observer.reconnects wsRetry (repeat Observer.failed n)) in
  Sorted N.le delays /\
  Forall (fun d => (d <= Observer.maxDelay)%N) delays /\
  Observer.onopen wsRetry = 0%N /\
  Observer.reconnects wsRetry [Observer.opened; Observer.failed]
  = (1%N, [(2 * Observer.baseDelay)%N]) /\
  snd (Observer.scheduleReconnect (Observer.onopen wsRetry))
  = snd (Observer.scheduleReconnect 0).
Proof.
  cbv zeta. split; [apply failures_sorted|].
  split; [apply failures_capped|].
  repeat split.
Qed.

(** * Further properties of the code *)

Import Signals.

(** ** Hysteresis over runs of equal signals *)

Section Runs.

Context {E : Type}.
Variable onChange : string -> healthState -> healthState -> entry -> list E.

Local Open Scope Z_scope.

Lemma final_run_cons (m : monitor) (c : cycle) (cs : list cycle) :
  final (run onChange m (c :: cs))
  = final (run onChange (final (tick onChange m c)) cs).
Proof. rewrite run_cons. reflexivity. Qed.

Lemma tick_failing (m : monitor) (c : cycle) :
  failing c ->
  let m' := final (tick onChange m c) in
  state m' =
    (if downAfterFails m <=? fail m + 1 then DOWN
     else if degradedAfterFails m <=? fail m + 1 then DEGRADED
     else state m) /\
  fail m' = fail m + 1 /\ succ m' = 0 /\
  degradedAfterFails m' = degradedAfterFails m /\
  downAfterFails m' = downAfterFails m /\
  okAfterSucc m' = okAfterSucc m.
Proof.
  intros [Hwan Hprobe]. unfold tick.
  destruct (step_probe_failure onChange m (observe c) Hwan) as (Hs & Hf & Hz).
  - now rewrite probeResult_observe.
  - destruct (step_config onChange m (observe c)) as (Hd & Hdown & Hok & _).
    cbv zeta in *. tauto.
Qed.

Lemma tick_succeeding (m : monitor) (c : cycle) :
  succeeding c ->
  let m' := final (tick onChange m c) in
  state m' =
    (if healthState_eqb (state m) UNKNOWN || (okAfterSucc m <=? succ m + 1)
     then OK else state m) /\
  fail m' = 0 /\ succ m' = succ m + 1 /\
  degradedAfterFails m' = degradedAfterFails m /\
  downAfterFails m' = downAfterFails m /\
  okAfterSucc m' = okAfterSucc m.
Proof.
  intros [Hwan Hprobe]. unfold tick.
  destruct (step_probe_success onChange m (observe c) Hwan) as (Hs & Hf & Hz).
  - now rewrite probeResult_observe.
  - destruct (step_config onChange m (observe c)) as (Hd & Hdown & Hok & _).
    cbv zeta in *. tauto.
Qed.

Lemma failures_in_a_row (cs : list cycle) :
  forall (m : monitor) (c : cycle),
    Forall failing (c :: cs) ->
    let n := Z.of_nat (List.length (c :: cs)) in
    let m' := final (run onChange m (c :: cs)) in
    state m' =
      (if downAfterFails m <=? fail m + n then DOWN
       else if degradedAfterFails m <=? fail m + n then DEGRADED
       else state m) /\
    fail m' = fail m + n /\ succ m' = 0.
Proof.
  induction cs as [|c' cs IH]; intros m c Hall; cbv zeta.
  - inversion_clear Hall as [|? ? Hc _].
    rewrite final_run_cons. cbn [run final fst List.length Z.of_nat].
    destruct (tick_failing m c Hc) as (Hs & Hf & Hz & _).
    change (Z.pos (Pos.of_succ_nat 0)) with 1. tauto.
  - inversion_clear Hall as [|? ? Hc Hrest].
    rewrite final_run_cons.
    destruct (tick_failing m c Hc) as (Hs & Hf & Hz & Hdeg & Hdown & _).
    set (m1 := final (tick onChange m c)) in *.
    destruct (IH m1 c' Hrest) as (Hs' & Hf' & Hz').
    rewrite Hs', Hf', Hz', Hs, Hf, Hdeg, Hdown.
    set (k := Z.of_nat (List.length (c' :: cs))).
    assert (Hk : Z.of_nat (List.length (c :: c' :: cs)) = 1 + k).
    { unfold k. cbn [List.length]. lia. }
    assert (Hpos : 1 <= k) by (unfold k; cbn [List.length]; lia).
    rewrite Hk. split; [|split; [lia|reflexivity]].
    replace (fail m + 1 + k) with (fail m + (1 + k)) by lia.
    destruct (Z.leb_spec (downAfterFails m) (fail m + (1 + k)));
      [reflexivity|].
    destruct (Z.leb_spec (degradedAfterFails m) (fail m + (1 + k)));
      [reflexivity|].
    destruct (Z.leb_spec (downAfterFails m) (fail m + 1)); [lia|].
    destruct (Z.leb_spec (degradedAfterFails m) (fail m + 1)); [lia|].
    reflexivity.
Qed.

Lemma successes_in_a_row (cs : list cycle) :
  forall (m : monitor) (c : cycle),
    Forall succeeding (c :: cs) ->
    let n := Z.of_nat (List.length (c :: cs)) in
    let m' := final (run onChange m (c :: cs)) in
    state m' =
      (if healthState_eqb (state m) UNKNOWN || (okAfterSucc m <=? succ m + n)
       then OK else state m) /\
    fail m' = 0 /\ succ m' = succ m + n.
Proof.
  induction cs as [|c' cs IH]; intros m c Hall; cbv zeta.
  - inversion_clear Hall as [|? ? Hc _].
    rewrite final_run_cons. cbn [run final fst List.length Z.of_nat].
    destruct (tick_succeeding m c Hc) as (Hs & Hf & Hz & _).
    change (Z.pos (Pos.of_succ_nat 0)) with 1. tauto.
  - inversion_clear Hall as [|? ? Hc Hrest].
    rewrite final_run_cons.
    destruct (tick_succeeding m c Hc) as (Hs & Hf & Hz & _ & _ & Hok).
    set (m1 := final (tick onChange m c)) in *.
    destruct (IH m1 c' Hrest) as (Hs' & Hf' & Hz').
    rewrite Hs', Hf', Hz', Hs, Hz, Hok.
    set (k := Z.of_nat (List.length (c' :: cs))).
    assert (Hk : Z.of_nat (List.length (c :: c' :: cs)) = 1 + k).
    { unfold k. cbn [List.length]. lia. }
    assert (Hpos : 1 <= k) by (unfold k; cbn [List.length]; lia).
    rewrite Hk. split; [|split; [reflexivity|lia]].
    replace (succ m + 1 + k) with (succ m + (1 + k)) by lia.
    destruct (state m); cbn [healthState_eqb orb];
      try reflexivity;
      destruct (Z.leb_spec (okAfterSucc m) (succ m + 1));
      destruct (Z.leb_spec (okAfterSucc m) (succ m + (1 + k)));
      cbn [healthState_eqb orb]; try reflexivity; try lia;
      destruct (Z.leb_spec (okAfterSucc m) (succ m + (1 + k)));
      try reflexivity; lia.
Qed.

(** After any cycle one of the two counters is zero; neither goes below
    zero. *)
Lemma tick_counters (m : monitor) (c : cycle) :
  let m' := final (tick onChange m c) in
  (fail m' = 0 \/ succ m' = 0) /\
  (0 <= fail m -> 0 <= fail m') /\
  (0 <= succ m -> 0 <= succ m').
Proof.
  cbv zeta. unfold tick, step.
  destruct (wanUp (observe c)) as [[|]|];
    try destruct (ok (probeResult (observe c))); cbn [negb];
    repeat match goal with
           | |- context [if ?x then _ else _] => destruct x
           end; cbn; lia.
Qed.

End Runs.

(** X1: consecutive probe failures (link not reported down) bring the
    monitor to DOWN once the fail counter reaches [downAfterFails], to
    DEGRADED once it reaches [degradedAfterFails], and leave the state as
    it was below both thresholds. *)
Theorem failures_reach_thresholds {E : Type}
    (onChange : string -> healthState -> healthState -> entry -> list E)
    (m : monitor) (cs : list cycle) :
  cs <> [] ->
  Forall failing cs ->
  let n := Z.of_nat (List.length cs) in
  let m' := final (run onChange m cs) in
  state m' =
    (if (downAfterFails m <=? fail m + n)%Z then DOWN
     else if (degradedAfterFails m <=? fail m + n)%Z then DEGRADED
     else state m) /\
  fail m' = (fail m + n)%Z /\ succ m' = 0%Z.
Proof.
  intros Hne Hall. destruct cs as [|c cs]; [congruence|].
  apply (failures_in_a_row onChange cs m c Hall).
Qed.

Lemma failures_reach_thresholds_witness :
  state (final (run Server.onChange healthyMonitor
                  [cycleProbeFails; cycleProbeFails; cycleProbeFails]))
  = DEGRADED.
Proof.
  apply (failures_reach_thresholds Server.onChange healthyMonitor
           [cycleProbeFails; cycleProbeFails; cycleProbeFails]).
  - discriminate.
  - repeat constructor; cbn; discriminate.
Defined.

(** X2: consecutive probe successes (link not reported down) give OK at
    once from UNKNOWN, and otherwise exactly when the success counter
    reaches [okAfterSucc]; until then the state is kept. *)
Theorem successes_confirm_ok {E : Type}
    (onChange : string -> healthState -> healthState -> entry -> list E)
    (m : monitor) (cs : list cycle) :
  cs <> [] ->
  Forall succeeding cs ->
  let n := Z.of_nat (List.length cs) in
  let m' := final (run onChange m cs) in
  state m' =
    (if healthState_eqb (state m) UNKNOWN || (okAfterSucc m <=? succ m + n)%Z
     then OK else state m) /\
  fail m' = 0%Z /\ succ m' = (succ m + n)%Z.
Proof.
  intros Hne Hall. destruct cs as [|c cs]; [congruence|].
  apply (successes_in_a_row onChange cs m c Hall).
Qed.

Lemma successes_confirm_ok_witness :
  state (final (run Server.onChange
                  (final (tick Server.onChange createDefault cycleLinkDown))
                  [cycleHealthy])) = DOWN /\
  state (final (run Server.onChange
                  (final (tick Server.onChange createDefault cycleLinkDown))
                  [cycleHealthy; cycleHealthy])) = OK.
Proof.
  split.
  - apply (successes_confirm_ok Server.onChange
             (final (tick Server.onChange createDefault cycleLinkDown))
             [cycleHealthy]).
    + discriminate.
    + repeat constructor; cbn; discriminate.
  - apply (successes_confirm_ok Server.onChange
             (final (tick Server.onChange createDefault cycleLinkDown))
             [cycleHealthy; cycleHealthy]).
    + discriminate.
    + repeat constructor; cbn; discriminate.
Defined.

(** X3: along any run from a new monitor the two counters are never
    negative and never both positive. *)
Theorem counters_exclusive {E : Type}
    (onChange : string -> healthState -> healthState -> entry -> list E)
    (degraded down okAfter : Z) (capacity : nat) (cs : list cycle) :
  let m' := final (run onChange (create degraded down okAfter capacity) cs) in
  (0 <= fail m')%Z /\ (0 <= succ m')%Z /\ (fail m' = 0%Z \/ succ m' = 0%Z).
Proof.
  cbv zeta.
  assert (Hgen : forall l m,
             (0 <= fail m)%Z -> (0 <= succ m)%Z ->
             (fail m = 0%Z \/ succ m = 0%Z) ->
             (0 <= fail (final (run onChange m l)))%Z /\
             (0 <= succ (final (run onChange m l)))%Z /\
             (fail (final (run onChange m l)) = 0%Z
              \/ succ (final (run onChange m l)) = 0%Z)).
  { induction l as [|c l IH]; intros m Hf Hs Hx.
    - cbn. tauto.
    - rewrite final_run_cons.
      destruct (tick_counters onChange m c) as (Hx' & Hf' & Hs').
      apply IH; tauto. }
  apply Hgen; cbn; lia.
Qed.

(** X4: in the first state machine probe results alone never lead to DOWN:
    unless the link is reported down, a machine that is not DOWN is not DOWN
    after an update, however many probes have failed. *)
Theorem legacy_probes_never_force_down (ENV : Legacy.env)
    (sm : Legacy.HealthStateMachine) (wanUp : option bool) (probeOk : bool) :
  wanUp <> Some false ->
  Legacy.state sm <> DOWN ->
  Legacy.state (Legacy.update ENV sm wanUp probeOk) <> DOWN.
Proof.
  intros Hwan Hstate. unfold Legacy.update.
  destruct wanUp as [[|]|]; try congruence;
    destruct probeOk; cbn [negb Legacy.state];
    repeat match goal with
           | |- context [if (?x <=? ?y)%Z then _ else _] => destruct (x <=? y)%Z
           end;
    destruct (Legacy.state sm); cbn; congruence.
Qed.

Lemma legacy_probes_never_force_down_witness :
  Legacy.state
    (Legacy.update sampleEnv
       {| Legacy.state := DEGRADED; Legacy.failCount := 40;
          Legacy.successCount := 0 |}
       (Some true) false) <> DOWN.
Proof.
  apply (legacy_probes_never_force_down sampleEnv
           {| Legacy.state := DEGRADED; Legacy.failCount := 40;
              Legacy.successCount := 0 |} (Some true) false);
    discriminate.
Defined.

(** ** What a cycle leaves behind and pushes *)

Section Latest.

Context {E : Type}.
Variable onChange : string -> healthState -> healthState -> entry -> list E.

Lemma step_lastEntry (m : monitor) (b : base) :
  lastEntry (final (step onChange m b))
  = Some (entryOf (outcomesOf (step onChange m b))).
Proof.
  unfold step.
  destruct (wanUp b) as [[|]|]; try reflexivity;
    destruct (ok (probeResult b)); cbn [negb];
    repeat match goal with
           | |- context [if ?x then _ else _] => destruct x
           end; reflexivity.
Qed.

Lemma step_entry_state (m : monitor) (b : base) :
  entry_state (entryOf (outcomesOf (step onChange m b)))
  = state (final (step onChange m b)).
Proof.
  unfold step.
  destruct (wanUp b) as [[|]|]; try reflexivity;
    destruct (ok (probeResult b)); cbn [negb];
    repeat match goal with
           | |- context [if ?x then _ else _] => destruct x
           end; reflexivity.
Qed.

Lemma step_changed (m : monitor) (b : base) :
  changed (outcomesOf (step onChange m b))
  = negb (healthState_eqb (state m) (state (final (step onChange m b)))).
Proof.
  unfold step.
  destruct (wanUp b) as [[|]|];
    try destruct (ok (probeResult b)); cbn [negb];
    repeat match goal with
           | |- context [if (?x <=? ?y)%Z then _ else _] => destruct (x <=? y)%Z
           | |- context [if (?x || ?y)%bool then _ else _] =>
               destruct (x || y)%bool
           end;
    cbn; destruct (state m); reflexivity.
Qed.

End Latest.

(** X5: a cycle always records exactly the entry it returns: it becomes
    [lastEntry], it carries the state the monitor is left in, the [changed]
    flag tells whether that state differs from the one before, and the entry
    is the head of the history unless the capacity is zero, in which case
    the history stays empty. *)
Theorem cycle_entry_is_latest {E : Type}
    (onChange : string -> healthState -> healthState -> entry -> list E)
    (m : monitor) (c : cycle) :
  let r := tick onChange m c in
  let e := entryOf (outcomesOf r) in
  lastEntry (final r) = Some e /\
  entry_state e = state (final r) /\
  prev (outcomesOf r) = state m /\
  next (outcomesOf r) = state (final r) /\
  changed (outcomesOf r) = negb (healthState_eqb (state m) (state (final r))) /\
  (0 < maxHistory m -> hd_error (history (final r)) = Some e) /\
  (maxHistory m = 0 -> history (final r) = []).
Proof.
  cbv zeta. unfold tick.
  rewrite step_lastEntry, step_entry_state, step_prev, next_is_state,
    step_changed, step_history, pushed_firstn.
  repeat split.
  - intros Hcap. destruct (maxHistory m); [lia|reflexivity].
  - intros ->. reflexivity.
Qed.

Lemma cycle_entry_is_latest_witness :
  hd_error (history (final (tick Server.onChange healthyMonitor cycleProbeFails)))
  = Some (entryOf (outcomesOf (tick Server.onChange healthyMonitor cycleProbeFails)))
  /\ history (final (tick Server.onChange (create 2 4 2 0) cycleProbeFails)) = [].
Proof.
  split.
  - apply (cycle_entry_is_latest Server.onChange healthyMonitor cycleProbeFails).
    cbn. lia.
  - apply (cycle_entry_is_latest Server.onChange (create 2 4 2 0) cycleProbeFails).
    reflexivity.
Defined.

(** X6: every run of the interval callback pushes exactly one tick message,
    last, with the state the monitor is left in and the entry of the cycle;
    it is preceded by one state-change message exactly when the state
    changed. *)
Theorem interval_pushes_one_tick (m : monitor) (c : cycle) :
  let m' := fst (Server.onInterval m c) in
  let e := entryOf (outcomesOf (tick Server.onChange m c)) in
  broadcastsOf (snd (Server.onInterval m c))
  = ((if healthState_eqb (state m) (state m') then []
      else [Server.state_change (state m) (state m') (stateLabel (state m')) e])
     ++ [Server.tick_message (state m') (stateLabel (state m')) e])%list.
Proof.
  cbv zeta. unfold Server.onInterval.
  destruct (tick Server.onChange m c) as [[m1 o] es] eqn:Htick.
  cbn [fst snd].
  assert (Hm : m1 = final (tick Server.onChange m c)) by now rewrite Htick.
  assert (Ho : o = outcomesOf (tick Server.onChange m c)) by now rewrite Htick.
  assert (He : es = effectsOf (tick Server.onChange m c)) by now rewrite Htick.
  rewrite He. unfold tick. rewrite step_effects.
  fold (tick Server.onChange m c). rewrite <- Hm, <- Ho.
  destruct (healthState_eqb (state m) (state m1)); [reflexivity|].
  unfold Server.onChange.
  destruct (healthState_eqb (state m1) DOWN);
    destruct (healthState_eqb (state m) DOWN && healthState_eqb (state m1) OK);
    reflexivity.
Qed.

(** X7: a broadcast hands the payload to every open socket whose [send]
    does not throw, whatever the other sockets do, and removes from the
    client set exactly the open sockets whose [send] throws; a socket that
    is not open is neither sent to nor removed. *)
Theorem broadcast_isolates_failures (clients : list Broadcast.socket) :
  let r := Broadcast.broadcast clients in
  (forall ws, In ws (snd r) <->
              In ws clients /\
              ~ (Broadcast.readyState ws = 1%Z /\ Broadcast.sendThrows ws = true)) /\
  (forall i, In i (fst r) <->
             exists ws, In ws clients /\ Broadcast.socketId ws = i /\
                        Broadcast.readyState ws = 1%Z /\
                        Broadcast.sendThrows ws = false).
Proof.
  cbv zeta. induction clients as [|ws rest [IHk IHd]].
  - cbn. split; intros; split; try tauto. intros (? & [] & _).
  - cbn [Broadcast.broadcast].
    destruct (Broadcast.broadcast rest) as [delivered kept]. cbn [fst snd] in *.
    unfold Broadcast.safeSend.
    destruct (Z.eqb_spec (Broadcast.readyState ws) 1) as [Hopen|Hclosed];
      destruct (Broadcast.sendThrows ws) eqn:Hthrow; cbn [fst snd];
      (split;
       [ intros x; cbn [In]; rewrite IHk; split;
         [ intros H; intuition (subst; congruence)
         | intros [[<- | Hin] Hx]; tauto ]
       | intros i; cbn [In]; try rewrite IHd; split;
         [ intros H;
           repeat match goal with
                  | H : _ \/ _ |- _ => destruct H
                  | H : exists _, _ |- _ => destruct H as (? & ? & ? & ? & ?)
                  end;
           eauto 10
         | intros (x & [<- | Hin] & Hid & Hr & Ht);
           try congruence; eauto 10 ] ]).
Qed.

(** ** Selection of the gateway and of the primary WAN group *)

Section Selection.

Local Open Scope Z_scope.

Lemma find_found (p : value -> bool) (l : list value) :
  (exists x, In x l /\ p x = true) ->
  In (find p l) l /\ p (find p l) = true.
Proof.
  induction l as [|y l IH]; intros (x & Hin & Hp).
  - destruct Hin.
  - cbn [find]. destruct (p y) eqn:Hy.
    + split; [now left|exact Hy].
    + destruct Hin as [<- | Hin]; [congruence|].
      destruct IH as [Hin' Hp']; [now exists x|].
      split; [now right|exact Hp'].
Qed.

Lemma find_member (p : value -> bool) (l : list value) :
  find p l = VUndefined \/ In (find p l) l.
Proof.
  induction l as [|y l IH]; [now left|].
  cbn [find]. destruct (p y); [right; now left|].
  destruct IH; [now left|right; now right].
Qed.

Lemma orElse_cases (a b : value) :
  (truthy a = true /\ orElse a b = a) \/ (truthy a = false /\ orElse a b = b).
Proof. unfold orElse. destruct (truthy a); tauto. Qed.

Lemma typed_is_truthy (d : value) (k t : string) :
  get d k = VStr t -> truthy d = true.
Proof. destruct d; cbn; congruence. Qed.

End Selection.

(** X8: [pickGateway] returns null or one of the devices, never anything
    else; and as soon as some device has type "gateway", the device returned
    has that type, whatever the model or name of earlier devices. *)
Theorem pickGateway_selects_a_device (devices : list value) :
  (Unifi.pickGateway devices = VNull \/ In (Unifi.pickGateway devices) devices) /\
  ((exists d, In d devices /\ get d "type" = VStr "gateway") ->
   get (Unifi.pickGateway devices) "type" = VStr "gateway").
Proof.
  unfold Unifi.pickGateway. split.
  - assert (Hfind : forall p, truthy (find p devices) = false
                              \/ In (find p devices) devices).
    { intros p. destruct (find_member p devices) as [-> | Hin];
        [now left|now right]. }
    assert (Hor : forall a b,
               (truthy a = false \/ In a devices) ->
               (truthy b = false \/ In b devices) ->
               truthy (orElse a b) = false \/ In (orElse a b) devices).
    { intros a b Ha Hb.
      destruct (orElse_cases a b) as [[_ ->] | [_ ->]]; assumption. }
    match goal with
    | |- orElse ?x VNull = VNull \/ _ =>
        assert (Hx : truthy x = false \/ In x devices)
          by (repeat apply Hor; apply Hfind);
        destruct (orElse_cases x VNull) as [[Ht ->] | [_ ->]]
    end.
    + right. destruct Hx as [Hf | Hin]; [congruence|exact Hin].
    + now left.
  - intros (d & Hin & Htype).
    set (byType := fun d0 : value =>
           match get d0 "type" with
           | VStr t => String.eqb t "gateway"
           | _ => false
           end).
    destruct (find_found byType devices) as [Hfin Hfp].
    { exists d. split; [exact Hin|]. unfold byType. now rewrite Htype. }
    assert (Hty : get (find byType devices) "type" = VStr "gateway").
    { unfold byType in Hfp at 1.
      destruct (get (find byType devices) "type"); try discriminate.
      apply String.eqb_eq in Hfp. now subst. }
    assert (Htruthy : truthy (find byType devices) = true)
      by exact (typed_is_truthy _ _ _ Hty).
    unfold orElse at 4. rewrite Htruthy.
    unfold orElse. rewrite !Htruthy. exact Hty.
Qed.

Lemma pickGateway_selects_a_device_witness :
  get (Unifi.pickGateway
         [VObj [("model", VStr "USG-3P"); ("type", VStr "ugw")]; gatewayLinkUp])
      "type" = VStr "gateway".
Proof.
  apply (pickGateway_selects_a_device
           [VObj [("model", VStr "USG-3P"); ("type", VStr "ugw")]; gatewayLinkUp]).
  exists gatewayLinkUp. split; [right; left; reflexivity|reflexivity].
Defined.

Section Primary.






End Primary.



(** ** The active probe *)

Section Probing.

Import Probe.

Lemma firstOk_found (net : targets) (urls : list string) :
  forall n u z,
    firstOk net n urls = Some (u, z) ->
    exists i,
      nth_error urls i = Some u /\
      net (n + i)%nat u = responded true z /\
      forall j v, (j < i)%nat -> nth_error urls j = Some v ->
                  forall z', net (n + j)%nat v <> responded true z'.
Proof.
  induction urls as [|x urls IH]; intros n u z H; [discriminate|].
  cbn [firstOk] in H.
  destruct (net n x) as [|[|] e] eqn:Hx.
  - destruct (IH (S n) u z H) as (i & Hi & Hnet & Hbefore).
    exists (S i). split; [exact Hi|].
    rewrite Nat.add_succ_r. split; [exact Hnet|].
    intros [|j] v Hj Hv z'.
    + cbn in Hv. injection Hv as <-. rewrite Nat.add_0_r, Hx. discriminate.
    + rewrite Nat.add_succ_r. apply (Hbefore j v); [lia|exact Hv].
  - injection H as <- <-. exists 0%nat. rewrite Nat.add_0_r.
    split; [reflexivity|]. split; [exact Hx|]. intros j v Hj. lia.
  - destruct (IH (S n) u z H) as (i & Hi & Hnet & Hbefore).
    exists (S i). split; [exact Hi|].
    rewrite Nat.add_succ_r. split; [exact Hnet|].
    intros [|j] v Hj Hv z'.
    + cbn in Hv. injection Hv as <-. rewrite Nat.add_0_r, Hx. discriminate.
    + rewrite Nat.add_succ_r. apply (Hbefore j v); [lia|exact Hv].
Qed.

Lemma firstOk_none (net : targets) (urls : list string) :
  forall n,
    firstOk net n urls = None ->
    forall i u, nth_error urls i = Some u ->
                forall z, net (n + i)%nat u <> responded true z.
Proof.
  induction urls as [|x urls IH]; intros n H i u Hi z.
  - destruct i; discriminate.
  - cbn [firstOk] in H. destruct i as [|i].
    + cbn in Hi. injection Hi as <-. rewrite Nat.add_0_r.
      destruct (net n x) as [|[|] e]; congruence.
    + cbn in Hi. rewrite Nat.add_succ_r.
      apply (IH (S n)); [|exact Hi].
      destruct (net n x) as [|[|] e]; congruence.
Qed.

Lemma firstOk_ext (net net' : targets) (urls : list string) :
  (forall n u, net n u = net' n u) ->
  forall n, firstOk net n urls = firstOk net' n urls.
Proof.
  intros Hext. induction urls as [|x urls IH]; intros n; [reflexivity|].
  cbn [firstOk]. rewrite Hext, (IH (S n)). reflexivity.
Qed.

(** A response in time for a timeout is in time for a longer one. *)
Lemma withTimeout_patient (s : servers) (t t' : Z) (n : nat) (u : string)
    (z : Z) :
  (t <= t')%Z ->
  withTimeout t s n u = responded true z ->
  withTimeout t' s n u = responded true z.
Proof.
  unfold withTimeout. intros Hle.
  destruct (s n u) as [|b after]; [discriminate|].
  destruct (Z.ltb_spec after t) as [Hin|Hout]; [|discriminate].
  intros H. injection H as -> ->.
  destruct (Z.ltb_spec z t') as [_|Hout']; [reflexivity|lia].
Qed.

(** Two timeouts with no response in between abort the same fetches. *)
Lemma withTimeout_gap (s : servers) (t t' : Z) :
  (t <= t')%Z ->
  (forall n u b after, s n u = answers b after -> (after < t \/ t' <= after)%Z) ->
  forall n u, withTimeout t s n u = withTimeout t' s n u.
Proof.
  intros Hle Hgap n u. unfold withTimeout.
  destruct (s n u) as [|b after] eqn:Hs; [reflexivity|].
  specialize (Hgap n u b after Hs).
  destruct (Z.ltb_spec after t), (Z.ltb_spec after t'); try reflexivity; lia.
Qed.

End Probing.

(** X10: [probeInternet] reports success exactly when some target answers
    ok; the target and latency reported are those of the first target that
    does, the targets before it having failed; when none answers it reports
    the first target without latency.  With no target configured it probes
    the default target. *)
Theorem probe_reports_first_success (probeUrls : list string)
    (net : Probe.targets) :
  let urls := Probe.effectiveUrls probeUrls in
  let r := Probe.probeInternet probeUrls net in
  (ok r = true <->
   exists i u z, nth_error urls i = Some u /\ net i u = Probe.responded true z) /\
  (ok r = true ->
   exists i z,
     nth_error urls i = Some (url r) /\
     net i (url r) = Probe.responded true z /\
     ms r = Some z /\
     forall j v, j < i -> nth_error urls j = Some v ->
                 forall z', net j v <> Probe.responded true z') /\
  (ok r = false -> hd_error urls = Some (url r) /\ ms r = None) /\
  (probeUrls = [] -> urls = [Probe.defaultTarget]).
Proof.
  cbv zeta. unfold Probe.probeInternet.
  set (urls := Probe.effectiveUrls probeUrls).
  destruct (Probe.firstOk net 0 urls) as [[u z]|] eqn:Hfirst.
  - destruct (firstOk_found net urls 0 u z Hfirst) as (i & Hi & Hnet & Hbefore).
    cbn [ok url ms]. split; [|split; [|split]].
    + split; [intros _; now exists i, u, z|reflexivity].
    + intros _. exists i, z. repeat split; assumption.
    + discriminate.
    + intros ->. reflexivity.
  - pose proof (firstOk_none net urls 0 Hfirst) as Hnone.
    cbn [ok url ms]. split; [|split; [|split]].
    + split; [discriminate|].
      intros (i & u & z & Hi & Hnet). exfalso.
      apply (Hnone i u Hi z). exact Hnet.
    + discriminate.
    + intros _. split; [|reflexivity].
      unfold urls, Probe.effectiveUrls. destruct probeUrls; reflexivity.
    + intros ->. reflexivity.
Qed.

Lemma probe_reports_first_success_witness :
  hd_error (Probe.effectiveUrls ["https://a.example/"; "https://b.example/"])
  = Some (url (Probe.probeInternet ["https://a.example/"; "https://b.example/"]
                 (fun _ _ => Probe.rejected))).
Proof.
  apply (probe_reports_first_success ["https://a.example/"; "https://b.example/"]
           (fun _ _ => Probe.rejected)).
  reflexivity.
Defined.

(** X11: [httpProbe] and [probeInternet] differ by their patience only.  On
    a non-empty list of targets: under the same timeout they give the same
    verdict and report the same target; a success of the less patient is a
    success of the more patient; and they agree whenever no target answers
    between the two timeouts.  Under the timeouts of the two programs, 3000
    and 3500 ms, a target that answers after 3200 ms is down for [httpProbe]
    and up for [probeInternet].  With no target at all [httpProbe] fetches
    nothing and reports failure with url "", whereas [probeInternet] probes
    its default target. *)
Theorem probes_agree_up_to_timeout (urls : list string) (s : Probe.servers)
    (t t' : Z) :
  (urls <> [] ->
   Legacy.ok (Probe.httpProbe urls t s)
   = ok (Probe.probeInternet urls (Probe.withTimeout t s)) /\
   Legacy.probeUrl (Probe.httpProbe urls t s)
   = url (Probe.probeInternet urls (Probe.withTimeout t s))) /\
  (urls <> [] -> (t <= t')%Z ->
   Legacy.ok (Probe.httpProbe urls t s) = true ->
   ok (Probe.probeInternet urls (Probe.withTimeout t' s)) = true) /\
  (urls <> [] -> (t <= t')%Z ->
   (forall n u b after,
      s n u = Probe.answers b after -> (after < t \/ t' <= after)%Z) ->
   Legacy.ok (Probe.httpProbe urls t s)
   = ok (Probe.probeInternet urls (Probe.withTimeout t' s)) /\
   Legacy.probeUrl (Probe.httpProbe urls t s)
   = url (Probe.probeInternet urls (Probe.withTimeout t' s))) /\
  (Legacy.ok (Probe.httpProbe ["https://a.example/"] Probe.PROBE_TIMEOUT_MS
                (fun _ _ => Probe.answers true 3200)) = false /\
   ok (Probe.probeInternet ["https://a.example/"]
         (Probe.withTimeout Probe.probeTimeoutMs
            (fun _ _ => Probe.answers true 3200))) = true) /\
  Probe.httpProbe [] t s = {| Legacy.ok := false; Legacy.probeUrl := "" |} /\
  ok (Probe.probeInternet [] (Probe.withTimeout t' s))
  = match s 0 Probe.defaultTarget with
    | Probe.answers true after => (after <? t')%Z
    | _ => false
    end.
Proof.
  assert (Hsame : forall net, urls <> [] ->
            Legacy.ok (match Probe.firstOk net 0 urls with
                       | Some (u, _) =>
                           {| Legacy.ok := true; Legacy.probeUrl := u |}
                       | None =>
                           {| Legacy.ok := false;
                              Legacy.probeUrl :=
                                match urls with u :: _ => u | [] => "" end |}
                       end)
            = ok (Probe.probeInternet urls net) /\
            Legacy.probeUrl (match Probe.firstOk net 0 urls with
                             | Some (u, _) =>
                                 {| Legacy.ok := true; Legacy.probeUrl := u |}
                             | None =>
                                 {| Legacy.ok := false;
                                    Legacy.probeUrl :=
                                      match urls with u :: _ => u | [] => "" end |}
                             end)
            = url (Probe.probeInternet urls net)).
  { intros net Hne. unfold Probe.probeInternet, Probe.effectiveUrls.
    destruct urls as [|u urls']; [congruence|].
    destruct (Probe.firstOk net 0 (u :: urls')) as [[v z]|]; split; reflexivity. }
  split; [|split; [|split; [|split; [|split]]]].
  - intros Hne. unfold Probe.httpProbe. now apply Hsame.
  - intros Hne Hle Hok.
    unfold Probe.httpProbe in Hok.
    destruct (Probe.firstOk (Probe.withTimeout t s) 0 urls) as [[u z]|] eqn:Hfirst;
      [|discriminate].
    destruct (firstOk_found _ _ _ _ _ Hfirst) as (i & Hi & Hnet & _).
    assert (Hnet' : Probe.withTimeout t' s i u = Probe.responded true z)
      by (apply (withTimeout_patient s t t' i u z Hle); exact Hnet).
    unfold Probe.probeInternet, Probe.effectiveUrls.
    destruct urls as [|u0 urls']; [congruence|].
    destruct (Probe.firstOk (Probe.withTimeout t' s) 0 (u0 :: urls'))
      as [[v z']|] eqn:Hfirst'; [reflexivity|].
    exfalso. exact (firstOk_none _ _ 0 Hfirst' i u Hi z Hnet').
  - intros Hne Hle Hgap. unfold Probe.httpProbe.
    rewrite (firstOk_ext (Probe.withTimeout t s) (Probe.withTimeout t' s)).
    + now apply Hsame.
    + intros n u. now apply withTimeout_gap with (1 := Hle) (2 := Hgap).
  - split; reflexivity.
  - reflexivity.
  - unfold Probe.probeInternet, Probe.withTimeout. cbn.
    destruct (s 0%nat Probe.defaultTarget) as [|[|] after]; try reflexivity;
      destruct (after <? t')%Z; reflexivity.
Qed.

Lemma probes_agree_up_to_timeout_witness :
  ok (Probe.probeInternet ["https://a.example/"; "https://b.example/"]
        (Probe.withTimeout 3500
           (fun n _ => if Nat.eqb n 0 then Probe.answers true 3200
                       else Probe.answers true 120)))
  = true.
Proof.
  destruct (probes_agree_up_to_timeout
              ["https://a.example/"; "https://b.example/"]
              (fun n _ => if Nat.eqb n 0 then Probe.answers true 3200
                          else Probe.answers true 120)
              3000 3500) as (_ & Hpatient & _).
  apply Hpatient; [discriminate|lia|reflexivity].
Defined.

(** ** Reading the device inventory page by page *)

Section Paging.

Import UnifiApi.
Import Legacy(returned, thrown, pending).

Lemma limit_positive : 0 < limit.
Proof. unfold limit. lia. Qed.

Lemma firstn_then_firstn_skipn {A : Type} (a b : nat) (l : list A) :
  (firstn a l ++ firstn b (skipn a l))%list = firstn (a + b) l.
Proof.
  revert l. induction a as [|a IH]; intros l; [reflexivity|].
  destruct l as [|x l]; cbn [firstn skipn Nat.add app].
  - now rewrite firstn_nil.
  - now rewrite IH.
Qed.

Lemma get_data (v : value) : JS.get (VObj [("data", v)]) "data" = v.
Proof. reflexivity. Qed.

Lemma inventory_page (a : api) (siteId : string) (inventory : list value)
    (k : nat) :
  listDevices a (inventoryServer a siteId inventory) k siteId (k * limit)
  = inr (VObj [("data", VArr (firstn limit (skipn (k * limit) inventory)))]).
Proof.
  unfold listDevices, UnifiApi.get, inventoryServer. cbn [url].
  rewrite String.eqb_refl. reflexivity.
Qed.

Lemma pages_of_inventory (a : api) (siteId : string) (inventory : list value) :
  forall rounds k,
    k * limit <= List.length inventory ->
    List.length inventory < (k + rounds) * limit ->
    pages rounds a (inventoryServer a siteId inventory) k siteId (k * limit)
          (firstn (k * limit) inventory)
    = (returned inventory, S (List.length inventory / limit)).
Proof.
  pose proof limit_positive as Hpos.
  induction rounds as [|rounds IH]; intros k Hlow Hhigh.
  - exfalso. rewrite Nat.add_0_r in Hhigh. lia.
  - cbn [pages]. rewrite inventory_page, get_data.
    set (data := firstn limit (skipn (k * limit) inventory)).
    assert (Hlen : List.length data
                   = Nat.min limit (List.length inventory - k * limit)).
    { unfold data. now rewrite length_firstn, length_skipn. }
    destruct (Nat.ltb_spec (List.length data) limit) as [Hshort|Hfull].
    + assert (Hrest : List.length inventory - k * limit < limit) by lia.
      assert (Hall : (firstn (k * limit) inventory ++ data)%list = inventory).
      { unfold data. rewrite firstn_then_firstn_skipn. apply firstn_all2. lia. }
      assert (Hdiv : List.length inventory / limit = k).
      { symmetry.
        apply (Nat.div_unique _ _ k (List.length inventory - k * limit)); lia. }
      now rewrite Hall, Hdiv.
    + assert (Hnext : (S k) * limit <= List.length inventory) by lia.
      replace (k * limit + limit)%nat with (S k * limit)%nat by lia.
      replace (firstn (k * limit) inventory ++ data)%list
        with (firstn (S k * limit) inventory).
      * apply IH; [exact Hnext|]. rewrite Nat.add_succ_comm. exact Hhigh.
      * unfold data. rewrite firstn_then_firstn_skipn. f_equal. lia.
Qed.

(** What a run of full pages followed by a failing request gives *)
Lemma pages_until_error (a : api) (net : controller) (siteId msg : string) :
  forall rounds k n out,
    k < rounds ->
    (forall i, i < k ->
       exists v, listDevices a net (n + i) siteId ((n + i) * limit) = inr v /\
                 limit <= List.length (dataOf v)) ->
    listDevices a net (n + k) siteId ((n + k) * limit) = inl msg ->
    pages rounds a net n siteId (n * limit) out = (thrown msg, S (n + k)).
Proof.
  induction rounds as [|rounds IH]; intros k n out Hk Hfull Herr; [lia|].
  cbn [pages]. destruct k as [|k].
  - rewrite Nat.add_0_r in Herr. rewrite Herr. now rewrite Nat.add_0_r.
  - destruct (Hfull 0) as (v & Hv & Hlen); [lia|].
    rewrite Nat.add_0_r in Hv. rewrite Hv.
    fold (dataOf v).
    destruct (Nat.ltb_spec (List.length (dataOf v)) limit) as [Hshort|_]; [lia|].
    replace (n * limit + limit)%nat with (S n * limit)%nat by lia.
    rewrite (IH k (S n)).
    + f_equal. lia.
    + lia.
    + intros i Hi. destruct (Hfull (S i)) as (w & Hw & Hwl); [lia|].
      exists w. rewrite Nat.add_succ_comm. split; assumption.
    + rewrite Nat.add_succ_comm. exact Herr.
Qed.

End Paging.

(** X12: against a controller that serves the inventory in pages of at most
    200 devices, [getAllDevices] returns the whole inventory, in order and
    without duplicates, after one request per full page plus one. *)
Theorem paging_collects_inventory (a : UnifiApi.api) (siteId : string)
    (inventory : list value) (rounds : nat) :
  List.length inventory < rounds * UnifiApi.limit ->
  UnifiApi.getAllDevices rounds a (inventoryServer a siteId inventory) siteId
  = (Legacy.returned inventory,
     S (List.length inventory / UnifiApi.limit)).
Proof.
  intros Hrounds. unfold UnifiApi.getAllDevices.
  apply (pages_of_inventory a siteId inventory rounds 0); [lia|exact Hrounds].
Qed.

Lemma paging_collects_inventory_witness :
  UnifiApi.getAllDevices 3 sampleApi
    (inventoryServer sampleApi "default" (repeat gatewayLinkUp 250)) "default"
  = (Legacy.returned (repeat gatewayLinkUp 250), 2).
Proof.
  apply (paging_collects_inventory sampleApi "default"
           (repeat gatewayLinkUp 250) 3).
  rewrite repeat_length. unfold UnifiApi.limit. lia.
Defined.

(** X13: when the request for a page fails after full pages, [getAllDevices]
    throws the error of that request: the devices of the pages already read
    are not returned. *)
Theorem paging_error_discards_pages (a : UnifiApi.api)
    (net : UnifiApi.controller) (siteId msg : string) (rounds k : nat) :
  k < rounds ->
  (forall i, i < k ->
     exists v,
       UnifiApi.listDevices a net i siteId (i * UnifiApi.limit) = inr v /\
       UnifiApi.limit <= List.length (dataOf v)) ->
  UnifiApi.listDevices a net k siteId (k * UnifiApi.limit) = inl msg ->
  UnifiApi.getAllDevices rounds a net siteId = (Legacy.thrown msg, S k).
Proof.
  intros Hk Hfull Herr. unfold UnifiApi.getAllDevices.
  apply (pages_until_error a net siteId msg rounds k 0 [] Hk); assumption.
Qed.

Lemma paging_error_discards_pages_witness :
  UnifiApi.getAllDevices 5 sampleApi busyAfterFirstPage "default"
  = (Legacy.thrown
       ("UniFi GET /proxy/network/integration/v1/sites/default/devices"
        ++ "?limit=200&offset=200 -> HTTP 503 busy"),
     2).
Proof.
  apply (paging_error_discards_pages sampleApi busyAfterFirstPage "default"
           _ 5 1).
  - lia.
  - intros i Hi. assert (i = 0) as -> by lia.
    eexists. split; [reflexivity|]. vm_compute. lia.
  - reflexivity.
Defined.

(** X14: [listWanNetworkGroups] makes at most two requests; when it throws,
    the error is always the one of the first request, also when the second
    attempt on the site "default" failed differently; and for the site
    "default" or an empty site id no second attempt is made. *)
Theorem wan_groups_rethrows_original (a : UnifiApi.api)
    (net : UnifiApi.controller) (n : nat) (siteId : string) :
  let r := UnifiApi.listWanNetworkGroups a net n siteId in
  snd r <= 2 /\
  (forall e, fst r = inl e ->
             UnifiApi.get a net n (UnifiApi.wanGroupsPath siteId) = inl e) /\
  (forall v, UnifiApi.get a net n (UnifiApi.wanGroupsPath siteId) = inr v ->
             r = (inr v, 1)) /\
  (siteId = "default" \/ siteId = "" -> snd r = 1) /\
  (forall e v,
     siteId <> "default" -> siteId <> "" ->
     UnifiApi.get a net n (UnifiApi.wanGroupsPath siteId) = inl e ->
     UnifiApi.get a net (S n) (UnifiApi.wanGroupsPath "default") = inr v ->
     r = (inr v, 2)).
Proof.
  cbv zeta. unfold UnifiApi.listWanNetworkGroups.
  destruct (UnifiApi.get a net n (UnifiApi.wanGroupsPath siteId)) as [e|v] eqn:H1.
  - destruct (String.eqb_spec siteId "") as [He|Hne];
      destruct (String.eqb_spec siteId "default") as [Hd|Hnd];
      cbn [negb andb fst snd];
      try (repeat split; try lia; try congruence; intros; congruence).
    destruct (UnifiApi.get a net (S n) (UnifiApi.wanGroupsPath "default"))
      as [e2|v2] eqn:H2; cbn [fst snd].
    + repeat split; try lia; try congruence.
      intros [Hs|Hs]; congruence.
    + repeat split; try lia; try congruence.
      intros [Hs|Hs]; congruence.
  - cbn [fst snd]. repeat split; try lia; try congruence.
Qed.

Lemma wan_groups_rethrows_original_witness :
  UnifiApi.listWanNetworkGroups sampleApi
    (fun n _ => if Nat.eqb n 0
                then inl "socket hang up"
                else inr {| Legacy.status := 200; Legacy.text := "[]";
                            Legacy.json := Some (VArr []);
                            Legacy.setCookies := [] |})
    0 "site-7" = (inr (VArr []), 2).
Proof.
  destruct (wan_groups_rethrows_original sampleApi
              (fun n _ => if Nat.eqb n 0
                          then inl "socket hang up"
                          else inr {| Legacy.status := 200; Legacy.text := "[]";
                                      Legacy.json := Some (VArr []);
                                      Legacy.setCookies := [] |})
              0 "site-7") as (_ & _ & _ & _ & Hfallback).
  apply (Hfallback "socket hang up" (VArr [])); try discriminate; reflexivity.
Defined.

(** ** The cookie client: logging in and a single authorised call *)

(** X15: [ensureLogin] always ends, after at most two exchanges with the
    controller and none at all when the client is already logged in.  When
    it returns after logging in, the cookie is not empty and dialect and
    effective address go together: UniFi OS at the configured address, or
    legacy at that address with port 8443; a forced mode never establishes
    the other dialect and costs one exchange.  The configured address and
    mode are never changed. *)
Theorem ensureLogin_establishes_session (ENV : Legacy.env)
    (net : Legacy.network) (w : Legacy.world) :
  let r := Legacy.ensureLogin ENV net w in
  let c := Legacy.self w in
  let c' := Legacy.self (snd r) in
  fst r <> Legacy.pending /\
  Legacy.exchanges w <= Legacy.exchanges (snd r) <= Legacy.exchanges w + 2 /\
  (Legacy.loggedIn c = true -> r = (Legacy.returned tt, w)) /\
  (Legacy.loggedIn c = false -> fst r = Legacy.returned tt ->
   Legacy.cookie c' <> "" /\
   ((Legacy.effectiveMode c' = Some Legacy.unifios /\
     Legacy.baseUrlEffective c' = Some (Legacy.baseUrl c) /\
     Legacy.mode c <> "legacy")
    \/
    (Legacy.effectiveMode c' = Some Legacy.legacy /\
     Legacy.baseUrlEffective c' = Some (Legacy.withPort (Legacy.baseUrl c) 8443) /\
     Legacy.mode c <> "unifios"))) /\
  (Legacy.mode c = "unifios" \/ Legacy.mode c = "legacy" ->
   Legacy.exchanges (snd r) <= Legacy.exchanges w + 1) /\
  Legacy.baseUrl c' = Legacy.baseUrl c /\
  Legacy.mode c' = Legacy.mode c.
Proof.
  cbv zeta.
  unfold Legacy.ensureLogin, Legacy.tryCatch, Legacy.loginUniFiOS,
    Legacy.loginLegacy, Legacy.login, Legacy.bind, Legacy.fetch,
    Legacy.setCookie, Legacy.setEffective, Legacy.bind, Legacy.getSelf,
    Legacy.setSelf, Legacy.throw, Legacy.ret.
  cbn [Legacy.self Legacy.exchanges Legacy.sent fst snd].
  destruct (Legacy.loggedIn (Legacy.self w)) eqn:Hlogged.
  { cbn [fst snd]. repeat split; try discriminate; try lia; congruence. }
  destruct (String.eqb_spec (Legacy.mode (Legacy.self w)) "unifios") as [Hu|Hu];
    [|destruct (String.eqb_spec (Legacy.mode (Legacy.self w)) "legacy") as [Hl|Hl]];
    repeat match goal with
           | |- context [if ?x then _ else _] => destruct x eqn:?
           | |- context [match net ?n ?r with _ => _ end] =>
               destruct (net n r) eqn:?
           end;
    cbn [fst snd Legacy.exchanges Legacy.self Legacy.cookie Legacy.baseUrl
         Legacy.mode Legacy.effectiveMode Legacy.baseUrlEffective] in *;
    repeat split; try discriminate; try lia; try congruence;
    try (intros; discriminate);
    try (apply String.eqb_neq; assumption);
    try (left; repeat split; congruence);
    try (right; repeat split; congruence);
    try (intros [?|?]; congruence).
Qed.

Lemma ensureLogin_establishes_session_witness :
  Legacy.ensureLogin sampleEnv alwaysUnauthorized
    {| Legacy.self := loggedInClient; Legacy.exchanges := 7; Legacy.sent := [] |}
  = (Legacy.returned tt,
     {| Legacy.self := loggedInClient; Legacy.exchanges := 7; Legacy.sent := [] |})
  /\
  Legacy.cookie
    (Legacy.self (snd (Legacy.ensureLogin sampleEnv alwaysUnauthorized freshWorld)))
  <> "".
Proof.
  split.
  - apply (ensureLogin_establishes_session sampleEnv alwaysUnauthorized
             {| Legacy.self := loggedInClient; Legacy.exchanges := 7;
                Legacy.sent := [] |}).
    reflexivity.
  - apply (ensureLogin_establishes_session sampleEnv alwaysUnauthorized
             freshWorld); reflexivity.
Defined.

(** X16: a logged-in client whose call is not answered with 401 or 403 makes
    exactly one exchange and does not touch its session: it returns the
    parsed body of a 2xx response, throws "HTTP <status> em <path>: <body>"
    on any other status, and throws the error of [fetch] when the request
    itself fails. *)
Theorem authorised_request_is_single (ENV : Legacy.env) (net : Legacy.network)
    (w : Legacy.world) (depth : nat) (path method : string) (body : value)
    (reply : string + Legacy.response) :
  let req :=
    {| Legacy.method := method;
       Legacy.url := match Legacy.baseUrlEffective (Legacy.self w) with
                     | Some b => b
                     | None => "null"
                     end ++ path;
       Legacy.cookieHeader := Some (Legacy.cookie (Legacy.self w));
       Legacy.body := if truthy body then Some body else None |} in
  Legacy.loggedIn (Legacy.self w) = true ->
  net (Legacy.exchanges w) req = reply ->
  (forall res, reply = inr res -> Legacy.unauthorized res = false) ->
  let r := Legacy.request ENV net (S depth) path method body w in
  fst r = match reply with
          | inl msg => Legacy.thrown msg
          | inr res =>
              if Legacy.resOk res then
                match Legacy.json res with
                | Some v => Legacy.returned v
                | None => Legacy.thrown "Unexpected token in JSON"
                end
              else Legacy.thrown ("HTTP " ++ showZ (Legacy.status res) ++ " em "
                                  ++ path ++ ": " ++ Legacy.text res)
          end /\
  Legacy.exchanges (snd r) = S (Legacy.exchanges w) /\
  Legacy.sent (snd r) = (Legacy.sent w ++ [req])%list /\
  Legacy.self (snd r) = Legacy.self w.
Proof.
  intros req Hlogged Hnet Hauth r.
  assert (Hreq :
    r = (match reply with
         | inl msg => Legacy.thrown msg
         | inr res =>
             if Legacy.resOk res then
               match Legacy.json res with
               | Some v => Legacy.returned v
               | None => Legacy.thrown "Unexpected token in JSON"
               end
             else Legacy.thrown ("HTTP " ++ showZ (Legacy.status res) ++ " em "
                                 ++ path ++ ": " ++ Legacy.text res)
         end,
         {| Legacy.self := Legacy.self w;
            Legacy.exchanges := S (Legacy.exchanges w);
            Legacy.sent := (Legacy.sent w ++ [req])%list |})).
  { subst r. rewrite request_succ.
    unfold Legacy.bind, Legacy.getSelf, Legacy.fetch.
    unfold Legacy.ensureLogin at 1. unfold Legacy.bind, Legacy.getSelf.
    rewrite Hlogged. unfold Legacy.ret at 1. cbn beta iota.
    cbn [Legacy.self Legacy.exchanges Legacy.sent].
    fold req. rewrite Hnet. destruct reply as [msg|res].
    - reflexivity.
    - cbv beta iota zeta. rewrite (Hauth res eq_refl).
      destruct (Legacy.resOk res); cbn [negb];
        [destruct (Legacy.json res)|]; reflexivity. }
  rewrite Hreq. cbn [fst snd Legacy.exchanges Legacy.sent Legacy.self].
  repeat split.
Qed.

Lemma authorised_request_is_single_witness :
  fst (Legacy.request sampleEnv expiredSession 1 devicePath "GET" VUndefined
         {| Legacy.self := loggedInClient; Legacy.exchanges := 3;
            Legacy.sent := [] |})
  = Legacy.returned (VObj [("data", VArr [])]).
Proof.
  apply (authorised_request_is_single sampleEnv expiredSession
           {| Legacy.self := loggedInClient; Legacy.exchanges := 3;
              Legacy.sent := [] |}
           0 devicePath "GET" VUndefined
           (inr {| Legacy.status := 200; Legacy.text := "{}";
                   Legacy.json := Some (VObj [("data", VArr [])]);
                   Legacy.setCookies := [] |})).
  - reflexivity.
  - reflexivity.
  - intros res [= <-]. reflexivity.
Defined.

(** ** The base address of the controller *)

Section Address.

Import BaseUrl.

Lemma substring_all (s : string) : substring 0 (String.length s) s = s.
Proof. induction s as [|c s IH]; [reflexivity|]. cbn. now rewrite IH. Qed.

Lemma append_empty_r (s : string) : s ++ "" = s.
Proof. induction s as [|c s IH]; [reflexivity|]. cbn. now rewrite IH. Qed.

Lemma lowerAscii_colon (c : ascii) : lowerAscii c = ":"%char -> c = ":"%char.
Proof. destruct c as [[] [] [] [] [] [] [] []]; vm_compute; congruence. Qed.

Lemma plainHost_span (h : string) :
  plainHost h = true ->
  Legacy.span (fun c => negb (Ascii.eqb c "/" || Ascii.eqb c ":")) h = (h, "").
Proof.
  induction h as [|c h IH]; [reflexivity|].
  cbn [plainHost Legacy.span]. intros H. apply andb_prop in H. destruct H as [Hc Hh].
  rewrite Hc, (IH Hh). reflexivity.
Qed.

Lemma plainHost_no_slash_end (h : string) : plainHost h = true -> endsWithSlash h = false.
Proof.
  induction h as [|c h IH]; [reflexivity|].
  cbn [plainHost]. intros H. apply andb_prop in H. destruct H as [Hc Hh].
  cbn [endsWithSlash]. destruct h as [|c' h'].
  - destruct (Ascii.eqb c "/"); [discriminate|reflexivity].
  - now apply IH.
Qed.

Lemma plainHost_no_scheme (h : string) : plainHost h = true -> hasScheme h = false.
Proof.
  intros H. unfold hasScheme.
  destruct h as [|c1 [|c2 [|c3 [|c4 [|c5 [|c6 h]]]]]]; try reflexivity;
    cbn [plainHost] in H;
    repeat match goal with
           | H : (_ && _)%bool = true |- _ => apply andb_prop in H; destruct H
           end;
    apply orb_false_iff; split; apply String.eqb_neq; intros E; cbn in E;
    try discriminate E.
  - destruct h as [|c7 [|c8 h]]; try discriminate E.
    all: injection E as _ _ _ _ _ E6 _; apply lowerAscii_colon in E6; subst; discriminate.
  - destruct h as [|c7 h]; try discriminate E.
    all: injection E as _ _ _ _ E5 _; apply lowerAscii_colon in E5; subst; discriminate.
Qed.

Lemma scheme_prefix (u : string) : substring 0 8 ("https://" ++ u) = "https://".
Proof. cbn. now destruct u. Qed.

Lemma after_scheme (u : string) :
  substring 8 (String.length ("https://" ++ u) - 8) ("https://" ++ u) = u.
Proof. cbn. rewrite Nat.sub_0_r. apply substring_all. Qed.

End Address.

(** X17: [normalizeBaseUrl] always yields an address with a scheme; a bare
    host name or IP address (no slash, no colon) becomes https://host, and
    [withPort] then appends the port, so that the legacy login of such a
    host goes to https://host:8443. *)
Theorem bare_host_is_completed (h : string) (port : Z) :
  h <> "" ->
  plainHost h = true ->
  BaseUrl.normalizeBaseUrl h = "https://" ++ h /\
  Legacy.withPort (BaseUrl.normalizeBaseUrl h) port
  = "https://" ++ h ++ ":" ++ showZ port /\
  forall url, BaseUrl.hasScheme (BaseUrl.normalizeBaseUrl url) = true.
Proof.
  intros Hne Hplain.
  assert (Hnorm : BaseUrl.normalizeBaseUrl h = "https://" ++ h).
  { unfold BaseUrl.normalizeBaseUrl.
    rewrite (plainHost_no_slash_end h Hplain), (plainHost_no_scheme h Hplain).
    reflexivity. }
  split; [exact Hnorm|]. split.
  - rewrite Hnorm. unfold Legacy.withPort, Legacy.matchUrl.
    rewrite scheme_prefix.
    change (String.eqb (foldCase "https://") "https://") with true.
    cbv iota. rewrite after_scheme, (plainHost_span h Hplain).
    destruct (String.eqb_spec h "") as [He|_]; [congruence|].
    rewrite scheme_prefix, append_empty_r. reflexivity.
  - intros url. unfold BaseUrl.normalizeBaseUrl.
    set (u := if BaseUrl.endsWithSlash url then BaseUrl.dropLast url else url).
    destruct (BaseUrl.hasScheme u) eqn:Hu; cbn [negb]; [exact Hu|].
    unfold BaseUrl.hasScheme. now rewrite scheme_prefix.
Qed.

Lemma bare_host_is_completed_witness :
  Legacy.withPort (BaseUrl.normalizeBaseUrl "192.168.1.200") 8443
  = "https://192.168.1.200:8443".
Proof.
  apply (bare_host_is_completed "192.168.1.200" 8443); [discriminate|reflexivity].
Defined.

(** ** The first monitor's loop *)

(** X18: [parseDataEnvelope] always yields an array, whatever the body:
    an array is kept as it is, the [data] member of an envelope is taken
    when it is an array, and applying it twice changes nothing. *)
Theorem envelope_is_always_array (json : value) :
  (exists items, Legacy.parseDataEnvelope json = VArr items) /\
  Legacy.parseDataEnvelope (Legacy.parseDataEnvelope json)
  = Legacy.parseDataEnvelope json /\
  (forall items, Legacy.parseDataEnvelope (VArr items) = VArr items) /\
  (forall fields items,
     lookup "data" fields = VArr items ->
     Legacy.parseDataEnvelope (VObj fields) = VArr items).
Proof.
  assert (Harr : forall items, Legacy.parseDataEnvelope (VArr items) = VArr items)
    by reflexivity.
  assert (Hex : exists items, Legacy.parseDataEnvelope json = VArr items).
  { unfold Legacy.parseDataEnvelope.
    destruct (truthy json); cbn [negb]; [|now exists []].
    destruct (isArray json) eqn:Hj.
    { destruct json; try discriminate. now eexists. }
    destruct (get json "data") eqn:Hd; cbn [isArray]; try (now eexists);
      destruct (get json "results") eqn:Hr; cbn [isArray]; try (now eexists);
      destruct (get json "rows") eqn:Hw; cbn [isArray]; now eexists. }
  split; [exact Hex|]. split; [|split; [exact Harr|]].
  - destruct Hex as [items ->]. apply Harr.
  - intros fields items Hdata. unfold Legacy.parseDataEnvelope.
    cbn [truthy negb isArray get]. now rewrite Hdata.
Qed.

Lemma envelope_is_always_array_witness :
  Legacy.parseDataEnvelope
    (VObj [("meta", VObj [("rc", VStr "ok")]); ("data", VArr [gatewayLinkUp])])
  = VArr [gatewayLinkUp].
Proof.
  apply (envelope_is_always_array VNull). reflexivity.
Defined.

(** X19: once the loop has announced the state it is in, an iteration posts
    an alert exactly when it changes the state, never more than one, and
    again remembers the state announced; this covers failed controller
    queries too.  Before anything was announced, the first iteration whose
    controller queries succeed always posts one alert. *)
Theorem alerts_follow_state_changes (ENV : Legacy.env)
    (effective : option Legacy.dialect) (l : Legacy.loop) (now : string)
    (controller : string + (value * value)) (probe : Legacy.httpProbeResult) :
  let r := Legacy.iteration ENV effective l now controller probe in
  (Legacy.lastNotifiedState l = Some (Legacy.state (Legacy.sm l)) ->
   (snd r = [] <-> Legacy.state (Legacy.sm (fst r)) = Legacy.state (Legacy.sm l)) /\
   List.length (snd r) <= 1 /\
   Legacy.lastNotifiedState (fst r) = Some (Legacy.state (Legacy.sm (fst r)))) /\
  (Legacy.lastNotifiedState l = None ->
   (exists bodies, controller = inr bodies) ->
   List.length (snd r) = 1 /\
   Legacy.lastNotifiedState (fst r) = Some (Legacy.state (Legacy.sm (fst r)))).
Proof.
  cbv zeta. unfold Legacy.iteration. split.
  - intros Hlast. destruct controller as [msg|[devicesJson healthJson]].
    + destruct (healthState_eqb (Legacy.state (Legacy.sm l)) UNKNOWN) eqn:Hs;
        cbn [negb fst snd Legacy.sm Legacy.state Legacy.lastNotifiedState
             List.length].
      * repeat split; auto.
      * repeat split; try lia; try discriminate.
        intros Hu. rewrite <- Hu in Hs. discriminate Hs.
    + rewrite Hlast. cbn [Legacy.sameState].
      match goal with
      | |- context [healthState_eqb ?a ?b] =>
          destruct (healthState_eqb a b) eqn:Hs
      end;
        cbn [negb fst snd Legacy.sm Legacy.state Legacy.lastNotifiedState
             List.length].
      * apply healthState_eqb_eq in Hs. repeat split; auto. congruence.
      * repeat split; try lia; try discriminate.
        intros Hu. apply healthState_eqb_eq in Hu. congruence.
  - intros Hlast [[devicesJson healthJson] ->]. rewrite Hlast.
    cbn [Legacy.sameState negb fst snd Legacy.sm Legacy.state
         Legacy.lastNotifiedState List.length]. split; reflexivity.
Qed.

Lemma alerts_follow_state_changes_witness :
  snd (Legacy.iteration sampleEnv (Some Legacy.unifios)
         {| Legacy.sm := Legacy.newMachine;
            Legacy.lastNotifiedState := Some UNKNOWN |}
         "2025-01-01T00:00:00.000Z" (inl "fetch failed")
         {| Legacy.ok := true; Legacy.probeUrl := "https://www.google.com/generate_204" |})
  = [].
Proof.
  apply (alerts_follow_state_changes sampleEnv (Some Legacy.unifios)
           {| Legacy.sm := Legacy.newMachine;
              Legacy.lastNotifiedState := Some UNKNOWN |}
           "2025-01-01T00:00:00.000Z" (inl "fetch failed")
           {| Legacy.ok := true;
              Legacy.probeUrl := "https://www.google.com/generate_204" |});
    reflexivity.
Defined.

(** ** The observer's local history and its reconnection delays *)

Section Local.

Import Observer.

Lemma fresh_key_not_found (e : HistoryItem) (hist : list HistoryItem) :
  (forall h, In h hist -> key h <> key e) ->
  existsb (fun h => String.eqb (key h) (key e)) hist = false.
Proof.
  intros Hfresh. destruct (existsb _ hist) eqn:Hex; [|reflexivity].
  apply existsb_exists in Hex. destruct Hex as (h & Hin & Hk).
  apply String.eqb_eq in Hk. now destruct (Hfresh h Hin).
Qed.

Lemma mergeTick_length (e : HistoryItem) (s : option healthState)
    (l : option string) (data : option StatusPayload) (bound : nat) :
  localCap <= bound ->
  historyLength data <= bound ->
  List.length (history (mergeTick e s l data)) <= bound.
Proof.
  intros Hcap Hdata. rewrite mergeTick_history. cbv zeta.
  destruct data as [p|]; cbn [historyLength] in Hdata.
  - destruct (existsb _ (history p)); [exact Hdata|].
    cbn [List.length]. rewrite length_firstn. unfold localCap in *. cbn [Nat.pred]. lia.
  - cbn [existsb]. rewrite firstn_nil. cbn. unfold localCap in Hcap. lia.
Qed.

End Local.

(** X20: a tick whose key is not in the local history puts its entry at the
    head and keeps at most the 249 newest of the entries held, so that the
    history has at most 250 entries afterwards, however long it was. *)
Theorem fresh_tick_is_prepended (e : Observer.HistoryItem)
    (s : option healthState) (l : option string)
    (data : Observer.StatusPayload) :
  (forall h, In h (Observer.history data) -> Observer.key h <> Observer.key e) ->
  let after := Observer.mergeTick e s l (Some data) in
  Observer.history after = e :: firstn 249 (Observer.history data) /\
  List.length (Observer.history after) <= Observer.localCap.
Proof.
  intros Hfresh. cbv zeta. rewrite mergeTick_history. cbv zeta.
  rewrite (fresh_key_not_found e _ Hfresh).
  split; [reflexivity|].
  cbn [List.length]. rewrite length_firstn. unfold Observer.localCap.
  cbn [Nat.pred]. lia.
Qed.

Lemma fresh_tick_is_prepended_witness :
  Observer.history
    (Observer.mergeTick (item "2025-01-01T00:00:45.000Z" DEGRADED None)
       (Some DEGRADED) None (Some localView))
  = item "2025-01-01T00:00:45.000Z" DEGRADED None
      :: firstn 249 (Observer.history localView).
Proof.
  apply (fresh_tick_is_prepended (item "2025-01-01T00:00:45.000Z" DEGRADED None)
           (Some DEGRADED) None localView).
  intros h [<- | [<- | [<- | []]]]; vm_compute; discriminate.
Defined.

(** X21: a status replaces the local history as it comes, without being cut
    to the local cap, whether pushed as a snapshot or read by the [load()]
    that every [state_change] message starts; the message itself and a
    failed [load()] leave the history alone.  So over any sequence of
    messages and settled loads the local history never holds more entries
    than the larger of 250 and the longest status received, and it does hold
    the 300 entries of a status of that length. *)
Theorem local_history_is_bounded (events : list pageEvent)
    (data : option Observer.StatusPayload) (bound : nat) :
  (Observer.localCap <= bound ->
   statusesWithin bound events ->
   historyLength data <= bound ->
   historyLength (replay events data) <= bound) /\
  (forall status lbl,
     historyLength (react (received (Observer.snapshot status lbl)) data)
     = List.length (Observer.history status)) /\
  (forall status, react (settled (inr status)) data = Some status) /\
  (forall message, react (settled (inl message)) data = data) /\
  react (received Observer.state_change) data = data /\
  historyLength
    (replay [received Observer.state_change; settled (inr (statusOf 300))] data)
  = 300.
Proof.
  split; [|repeat split].
  intros Hcap. revert data.
  induction events as [|ev events IH]; intros data Hin Hdata; [exact Hdata|].
  inversion_clear Hin as [|? ? Hev Hrest].
  cbn [replay]. apply IH; [exact Hrest|].
  destruct ev as [[status lbl|entry s lbl|]|[message|status]];
    cbn [react Observer.onmessage Observer.load fst].
  - exact Hev.
  - cbn [historyLength]. now apply mergeTick_length.
  - exact Hdata.
  - exact Hdata.
  - exact Hev.
Qed.

Lemma local_history_is_bounded_witness :
  historyLength
    (replay [received (Observer.snapshot localView "🟢 OK");
             received (Observer.tick replayed None None);
             received Observer.state_change;
             received (Observer.tick (item "2025-01-01T00:00:45.000Z" OK (Some 20%Z))
                                     (Some OK) None);
             settled (inr (statusOf 300));
             received (Observer.tick (item "2025-01-01T00:01:00.000Z" OK (Some 20%Z))
                                     (Some OK) None);
             settled (inl "HTTP 502")]
            None) <= 300.
Proof.
  apply (local_history_is_bounded _ None 300).
  - unfold Observer.localCap. lia.
  - unfold statusesWithin.
    repeat (apply Forall_cons; [vm_compute; try exact I; try lia|]).
    apply Forall_nil.
  - cbn. lia.
Defined.

(** X22: counted from a successful connection, the k-th consecutive failure
    leaves the attempt counter at min(8, k) and is scheduled after
    min(15000, 500 * 2^k) ms up to the eighth; from the fifth failure on the
    delay is the cap of 15000 ms, and the counter never exceeds 8. *)
Theorem backoff_closed_form (k : nat) :
  let r := Observer.reconnects 0 (repeat Observer.failed (S k)) in
  fst r = N.min 8 (N.of_nat (S k)) /\
  last (snd r) 0%N
  = N.min Observer.maxDelay
      (Observer.baseDelay * 2 ^ N.min 8 (N.of_nat (S k))) /\
  (4 <= k -> last (snd r) 0%N = Observer.maxDelay) /\
  forall wsRetry rs, (fst (Observer.reconnects wsRetry rs) <= N.max wsRetry 8)%N.
Proof.
  cbv zeta.
  assert (Hgen : forall n w,
             (w <= 8)%N ->
             fst (Observer.reconnects w (repeat Observer.failed (S n)))
             = N.min 8 (w + N.of_nat (S n)) /\
             last (snd (Observer.reconnects w (repeat Observer.failed (S n)))) 0%N
             = N.min Observer.maxDelay
                 (Observer.baseDelay * 2 ^ N.min 8 (w + N.of_nat (S n)))).
  { induction n as [|n IH]; intros w Hw.
    - cbn [repeat]. rewrite reconnects_failed. cbn [Observer.reconnects fst snd last].
      unfold Observer.scheduleReconnect, Observer.maxAttempt. cbn [fst snd].
      replace (w + N.of_nat 1)%N with (w + 1)%N by lia. split; reflexivity.
    - change (repeat Observer.failed (S (S n)))
        with (Observer.failed :: repeat Observer.failed (S n)).
      rewrite reconnects_failed. cbn [fst snd].
      destruct (IH (fst (Observer.scheduleReconnect w))) as [Hf Hl].
      { apply attempt_capped. }
      assert (Hw' : (N.min 8 (fst (Observer.scheduleReconnect w) + N.of_nat (S n))
                     = N.min 8 (w + N.of_nat (S (S n))))%N).
      { unfold Observer.scheduleReconnect, Observer.maxAttempt. cbn [fst]. lia. }
      rewrite Hf, Hw'. split; [reflexivity|].
      assert (Hne : snd (Observer.reconnects (fst (Observer.scheduleReconnect w))
                           (repeat Observer.failed (S n))) <> []).
      { cbn [repeat]. rewrite reconnects_failed. discriminate. }
      destruct (snd (Observer.reconnects (fst (Observer.scheduleReconnect w))
                       (repeat Observer.failed (S n)))) as [|d ds] eqn:Hds;
        [congruence|].
      change (last (snd (Observer.scheduleReconnect w) :: d :: ds) 0%N)
        with (last (d :: ds) 0%N).
      rewrite Hl, Hw'. reflexivity. }
  destruct (Hgen k 0%N) as [Hf Hl]; [lia|].
  rewrite N.add_0_l in Hf, Hl.
  split; [exact Hf|]. split; [exact Hl|]. split.
  - intros Hk. rewrite Hl.
    assert (Hpow : (2 ^ 5 <= 2 ^ N.min 8 (N.of_nat (S k)))%N).
    { apply N.pow_le_mono_r; lia. }
    unfold Observer.maxDelay, Observer.baseDelay in *.
    change (2 ^ 5)%N with 32%N in Hpow. lia.
  - intros wsRetry rs. revert wsRetry.
    induction rs as [|[|] rs IH]; intros wsRetry.
    + cbn. lia.
    + cbn [Observer.reconnects]. specialize (IH (Observer.onopen wsRetry)).
      unfold Observer.onopen in *. lia.
    + rewrite reconnects_failed. cbn [fst].
      specialize (IH (fst (Observer.scheduleReconnect wsRetry))).
      pose proof (attempt_capped wsRetry) as Hc.
      unfold Observer.maxAttempt in Hc. lia.
Qed.

Lemma backoff_closed_form_witness :
  last (snd (Observer.reconnects 0 (repeat Observer.failed 6))) 0%N
  = Observer.maxDelay.
Proof.
  apply (backoff_closed_form 5). lia.
Defined.

(** ** Reading the audit file *)

Section AuditFile.

Import Logger.

Context {A : Type}.
Variable stringify : A -> string.
Variable parse : string -> option A.



Lemma lastN_map {B C : Type} (f : B -> C) (k : nat) (l : list B) :
  lastN k (map f l) = map f (lastN k l).
Proof. unfold lastN. now rewrite length_map, skipn_map. Qed.

Lemma lastN_length {B : Type} (k : nat) (l : list B) :
  List.length (lastN k l) = Nat.min k (List.length l).
Proof. unfold lastN. rewrite length_skipn. lia. Qed.


Lemma string_app_assoc (a b c : string) : (a ++ b) ++ c = a ++ b ++ c.
Proof. induction a as [|x a IH]; [reflexivity|]. cbn. now rewrite IH. Qed.

Lemma split_line (l rest : string) :
  singleLine l = true ->
  split (l ++ String lineFeed rest) = l :: split rest.
Proof.
  induction l as [|c l IH]; intros Hl.
  - cbn [append split]. now rewrite Ascii.eqb_refl.
  - cbn [singleLine] in Hl. apply andb_prop in Hl. destruct Hl as [Hc Hl].
    cbn [append split]. apply negb_true_iff in Hc. rewrite Hc.
    now rewrite (IH Hl).
Qed.

Lemma lines_line (l rest : string) :
  singleLine l = true -> l <> "" ->
  lines (l ++ String lineFeed rest) = l :: lines rest.
Proof.
  intros Hl Hne. unfold lines. rewrite (split_line l rest Hl).
  cbn [filter]. destruct (String.eqb_spec l "") as [He|_]; [congruence|].
  reflexivity.
Qed.

(** The text of the lines of the events, each ended by a line feed *)
Lemma written_content (events : list A) :
  forall file,
    match fold_left (appendEvent stringify) events file with
    | Some c => c
    | None => ""
    end
    = match file with Some c => c | None => "" end
      ++ fold_right (fun e acc => stringify e ++ String lineFeed acc) "" events.
Proof.
  induction events as [|e events IH]; intros file.
  - cbn. destruct file as [c|]; [|reflexivity].
    induction c as [|x c IHc]; [reflexivity|]. cbn. now rewrite <- IHc.
  - cbn [fold_left fold_right]. rewrite IH. unfold appendEvent.
    rewrite !string_app_assoc. reflexivity.
Qed.

Lemma appended_file_exists (events : list A) :
  forall c, fold_left (appendEvent stringify) events (Some c) <> None.
Proof.
  induction events as [|e events IH]; intros c; [discriminate|].
  cbn [fold_left]. unfold appendEvent at 2. apply IH.
Qed.

Lemma written_none (events : list A) :
  written stringify events = None -> events = [].
Proof.
  unfold written. destruct events as [|e events]; [reflexivity|].
  cbn [fold_left]. unfold appendEvent at 2. intros H.
  now apply appended_file_exists in H.
Qed.

Lemma lines_of_events (events : list A) :
  (forall e, singleLine (stringify e) = true /\ stringify e <> "") ->
  lines (fold_right (fun e acc => stringify e ++ String lineFeed acc) "" events)
  = map stringify events.
Proof.
  intros Hline. induction events as [|e events IH]; [reflexivity|].
  cbn [fold_right map]. destruct (Hline e) as [Hs Hne].
  now rewrite (lines_line _ _ Hs Hne), IH.
Qed.

End AuditFile.




(** X25: events appended one after the other are read back by [readTail]
    as they were written, the last ones in their order, as long as every
    record is written on one non-empty line and parses back to itself. *)
Theorem appended_events_read_back {A : Type} (stringify : A -> string)
    (parse : string -> option A) (events : list A) (limit : number) :
  (forall e, singleLine (stringify e) = true /\ stringify e <> "") ->
  (forall e, parse (stringify e) = Some e) ->
  let k := Z.to_nat (Logger.clampLimit limit) in
  Logger.tail_lines (Logger.readTail parse (written stringify events) limit)
  = map inl (Logger.lastN k events) /\
  Logger.tail_count (Logger.readTail parse (written stringify events) limit)
  = Nat.min k (List.length events).
Proof.
  intros Hline Hparse. cbv zeta.
  destruct (written stringify events) as [content|] eqn:Hfile.
  - assert (Hcontent :
      content
      = fold_right (fun e acc => stringify e ++ String Logger.lineFeed acc)
                   "" events).
    { pose proof (written_content stringify events None) as H.
      unfold written in Hfile. rewrite Hfile in H. exact H. }
    unfold Logger.readTail.
    cbn [Logger.tail_lines Logger.tail_count].
    rewrite Hcontent, (lines_of_events stringify events Hline).
    rewrite lastN_map, map_map, length_map, lastN_length. split; [|reflexivity].
    apply map_ext. intros e. unfold Logger.readLine. now rewrite Hparse.
  - apply written_none in Hfile. subst events. cbn. split; [reflexivity|lia].
Qed.

Lemma appended_events_read_back_witness :
  Logger.tail_lines
    (Logger.readTail kindOfName
       (written kindName [Server.INTERNET_DOWN; Server.INTERNET_RESTORED;
                          Server.INTERNET_DOWN])
       (Num 2))
  = [inl Server.INTERNET_RESTORED; inl Server.INTERNET_DOWN].
Proof.
  apply (appended_events_read_back kindName kindOfName
           [Server.INTERNET_DOWN; Server.INTERNET_RESTORED; Server.INTERNET_DOWN]
           (Num 2)).
  - intros []; split; (reflexivity || discriminate).
  - intros []; reflexivity.
Defined.

